(** * Flic button adapter: connection and pairing lifecycle

    A shallow embedding of [adapter.js] (classes [FlicButton] and
    [FlicAdapter]) and the properties of its connection / pairing state
    machine.

    The adapter is single-threaded JavaScript driven by an event loop.  The
    embedding keeps that shape:

    - the mutable objects the code shares (the adapter's fields, the
      [FlicButton] objects, the event emitters and their listener lists, the
      armed timers, the closure environment of every suspended [addDevice]
      call) live in one [World];
    - every method is a computation in a state-and-exception monad [M] over
      that world, so [try]/[catch]/[finally] and [throw] read as in the source;
    - closures are defunctionalised: a listener or timer callback is a
      constructor naming the function literal and carrying what it captured;
    - one turn of the event loop is an [Event]; [step] runs it to completion. *)

From stdpp Require Import gmap strings list fin_maps pretty.
From Stdlib Require Import ZArith.

Local Open Scope Z_scope.
Local Open Scope string_scope.
Local Open Scope list_scope.

(** ** JavaScript values that reach the adapter untyped *)

(** [name] is either a string (from an advertisement packet) or [undefined]
    (start-up replay, or a parameter that received no argument). *)
Inductive Value :=
| Undefined
| Str (s : string).

(** [if(name)]: [undefined] and the empty string are falsy. *)
Definition truthy (v : Value) : bool :=
  match v with
  | Undefined => false
  | Str s => negb (String.eqb s "")
  end.

Definition text (v : Value) : string :=
  match v with
  | Undefined => "undefined"
  | Str s => s
  end.

(** ** Closures, defunctionalised *)

(** Every function literal that the source registers with [on(...)].  The
    argument is what the closure captured: the channel [cc] (and with it the
    [timeout] variable and the [resolve]/[reject] pair of that [addDevice]
    call), or [this] of the [FlicButton] under construction. *)
Inductive Listener :=
| OnCreateResponse (cc : nat)
| OnConnectionStatusChanged (cc : nat)
| OnRemoved (cc : nat)
| OnButtonUpOrDown (this : nat)
| OnButtonSingleOrDoubleClickOrHold (this : nat)
| OnBatteryStatus (this : nat)
| OnAdvertisementPacket.

(** The two callbacks handed to [setTimeout]. *)
Inductive TimerCallback :=
| RemoveChannelAfterDeadline (cc : nat)
    (* function() { this.client.removeConnectionChannel(cc); } *)
| CancelPairingAfterDeadline.
    (* () => this.cancelPairing() *)

(** What [this] is bound to when a [function] (not an arrow) is invoked. *)
Inductive This :=
| ThisAdapter
| ThisTimeout (t : nat).

(** ** The outside world *)

(** Commands the adapter issues on the [FlicClient]. *)
Inductive ClientCmd :=
| AddConnectionChannel (cc : nat)
| RemoveConnectionChannel (cc : nat)
| AddScanner (s : nat)
| RemoveScanner (s : option nat)
| AddBatteryStatusListener (l : nat)
| RemoveBatteryStatusListener (l : nat)
| DeleteButton (bdAddr : string).

(** Everything observable from outside, in the order it happens. *)
Inductive Effect :=
| Client (c : ClientCmd)
| ConsoleError (e : string)
| ConsoleWarn (args : list Value)
| HostDeviceAdded (thing : nat)
| HostDeviceRemoved (thing : nat)
| HostPropertyChanged (thing : nat) (prop : string)
| HostEvent (thing : nat) (name : string)
| Uncaught (e : string)
| UnhandledRejection (e : string).

(** Signals emitted on the client library's event emitters. *)
Inductive Signal :=
| createResponse (error connectionStatus : string)
| connectionStatusChanged (connectionStatus disconnectReason : string)
| removed (removedReason : string)
| buttonUpOrDown (clickType : string)
| buttonSingleOrDoubleClickOrHold (clickType : string)
| batteryStatus (percentage : Z)
| advertisementPacket (bdAddr name : string) (rssi : Z) (isPrivate alreadyVerified : bool).

Definition event_name (s : Signal) : string :=
  match s with
  | createResponse _ _ => "createResponse"
  | connectionStatusChanged _ _ => "connectionStatusChanged"
  | removed _ => "removed"
  | buttonUpOrDown _ => "buttonUpOrDown"
  | buttonSingleOrDoubleClickOrHold _ => "buttonSingleOrDoubleClickOrHold"
  | batteryStatus _ => "batteryStatus"
  | advertisementPacket _ _ _ _ _ => "advertisementPacket"
  end.

(** ** Objects *)

(** A [FlicButton].  The property descriptors and event declarations that
    only feed the gateway's user interface are left out; the two property
    values are kept. *)
Record FlicButton := mkFlicButton {
  b_id : string;                  (* `flic-${bdAddr}` *)
  b_name : string;
  b_bdAddr : string;
  b_cc : nat;
  b_battery : Z;
  b_pushed : bool;
  b_batteryStatusListener : nat
}.

(** The promise [p] of one [addDevice] call. *)
Inductive Promise :=
| Pending
| Fulfilled (cc : nat)
| Rejected (reason : string).

(** The closure environment of one [addDevice(bdAddr, name, true)] call:
    its parameters, its local [timeout], its promise, and whether the call
    is suspended at [await p]. *)
Record Attempt := mkAttempt {
  a_bdAddr : string;
  a_name : Value;
  a_timeout : option nat;
  a_p : Promise;
  a_awaiting : bool
}.

Record World := mkWorld {
  (* fields of the FlicAdapter *)
  devices : gmap string nat;          (* this.devices, by device id *)
  connecting : gset string;           (* this.connecting *)
  timeout : option nat;               (* this.timeout *)
  scanner : option nat;               (* this.scanner *)
  (* the heap *)
  buttons : gmap nat FlicButton;
  channels : gmap nat string;         (* new flic.FlicConnectionChannel(bdAddr) *)
  attempts : gmap nat Attempt;        (* by the channel the call created *)
  listeners : gmap (nat * string) (list Listener);
  timers : gmap nat (TimerCallback * Z);   (* armed timers, with their delay in ms *)
  next : nat;                         (* next fresh object identity *)
  (* the outside *)
  effects : list Effect
}.

Definition set_devices (f : gmap string nat → gmap string nat) (w : World) : World :=
  mkWorld (f (devices w)) (connecting w) (timeout w) (scanner w) (buttons w)
          (channels w) (attempts w) (listeners w) (timers w) (next w) (effects w).
Definition set_connecting (f : gset string → gset string) (w : World) : World :=
  mkWorld (devices w) (f (connecting w)) (timeout w) (scanner w) (buttons w)
          (channels w) (attempts w) (listeners w) (timers w) (next w) (effects w).
Definition set_timeout (v : option nat) (w : World) : World :=
  mkWorld (devices w) (connecting w) v (scanner w) (buttons w)
          (channels w) (attempts w) (listeners w) (timers w) (next w) (effects w).
Definition set_scanner (v : option nat) (w : World) : World :=
  mkWorld (devices w) (connecting w) (timeout w) v (buttons w)
          (channels w) (attempts w) (listeners w) (timers w) (next w) (effects w).
Definition set_buttons (f : gmap nat FlicButton → gmap nat FlicButton) (w : World) : World :=
  mkWorld (devices w) (connecting w) (timeout w) (scanner w) (f (buttons w))
          (channels w) (attempts w) (listeners w) (timers w) (next w) (effects w).
Definition set_channels (f : gmap nat string → gmap nat string) (w : World) : World :=
  mkWorld (devices w) (connecting w) (timeout w) (scanner w) (buttons w)
          (f (channels w)) (attempts w) (listeners w) (timers w) (next w) (effects w).
Definition set_attempts (f : gmap nat Attempt → gmap nat Attempt) (w : World) : World :=
  mkWorld (devices w) (connecting w) (timeout w) (scanner w) (buttons w)
          (channels w) (f (attempts w)) (listeners w) (timers w) (next w) (effects w).
Definition set_listeners
    (f : gmap (nat * string) (list Listener) → gmap (nat * string) (list Listener))
    (w : World) : World :=
  mkWorld (devices w) (connecting w) (timeout w) (scanner w) (buttons w)
          (channels w) (attempts w) (f (listeners w)) (timers w) (next w) (effects w).
Definition set_timers
    (f : gmap nat (TimerCallback * Z) → gmap nat (TimerCallback * Z)) (w : World) : World :=
  mkWorld (devices w) (connecting w) (timeout w) (scanner w) (buttons w)
          (channels w) (attempts w) (listeners w) (f (timers w)) (next w) (effects w).
Definition set_next (n : nat) (w : World) : World :=
  mkWorld (devices w) (connecting w) (timeout w) (scanner w) (buttons w)
          (channels w) (attempts w) (listeners w) (timers w) n (effects w).
Definition log (e : Effect) (w : World) : World :=
  mkWorld (devices w) (connecting w) (timeout w) (scanner w) (buttons w)
          (channels w) (attempts w) (listeners w) (timers w) (next w) (effects w ++ [e]).

(** The adapter right after its constructor: [this.connecting = new Set()],
    no device, no pairing session. *)
Definition initial : World :=
  mkWorld ∅ ∅ None None ∅ ∅ ∅ ∅ ∅ 0%nat [].

(** ** The monad: state plus exceptions *)

Inductive Res (A : Type) :=
| Ret (a : A)
| Throw (e : string).
Arguments Ret {A} a.
Arguments Throw {A} e.

Definition M (A : Type) : Type := World → Res A * World.

Definition ret {A} (a : A) : M A := fun w => (Ret a, w).
Definition throw {A} (e : string) : M A := fun w => (Throw e, w).
Definition bind {A B} (m : M A) (k : A → M B) : M B :=
  fun w => match m w with
           | (Ret a, w') => k a w'
           | (Throw e, w') => (Throw e, w')
           end.
Definition get : M World := fun w => (Ret w, w).
Definition modify (f : World → World) : M unit := fun w => (Ret tt, f w).

Declare Scope js_scope.
Delimit Scope js_scope with js.
Notation "x <- c1 ;; c2" := (bind c1 (fun x => c2))
  (at level 100, c1 at next level, c2 at level 200, right associativity) : js_scope.
Notation "c1 ;; c2" := (bind c1 (fun _ => c2))
  (at level 100, c2 at level 200, right associativity) : js_scope.
Local Open Scope js_scope.

(** [try { body } catch(e) { handler e } finally { fin }]. *)
Definition try_catch_finally (body : M unit) (handler : string → M unit) (fin : M unit)
    : M unit :=
  fun w =>
    let '(r, w1) := body w in
    let '(r', w2) := match r with
                     | Ret _ => (Ret tt, w1)
                     | Throw e => handler e w1
                     end in
    match fin w2 with
    | (Ret _, w3) => (r', w3)
    | (Throw e, w3) => (Throw e, w3)
    end.

(** Run [m] and hand back how it ended, thrown or not. *)
Definition outcome {A} (m : M A) : M (Res A) :=
  fun w => let '(r, w') := m w in (Ret r, w').

(** Calling an [async] function without awaiting it: whatever it throws
    rejects the promise it returned, which nobody handles. *)
Definition call_async (m : M unit) : M unit :=
  fun w => match m w with
           | (Ret _, w') => (Ret tt, w')
           | (Throw e, w') => (Ret tt, log (UnhandledRejection e) w')
           end.

Fixpoint for_each {A} (l : list A) (f : A → M unit) : M unit :=
  match l with
  | [] => ret tt
  | x :: l' => f x ;; for_each l' f
  end.

(** ** Primitives *)

Definition alloc : M nat :=
  fun w => (Ret (next w), set_next (S (next w)) w).

Definition listeners_of (w : World) (obj : nat) (ev : string) : list Listener :=
  default [] (listeners w !! (obj, ev)).

(** [obj.on(ev, l)] appends to the listeners of that event. *)
Definition add_listener (obj : nat) (ev : string) (l : Listener)
    (ls : gmap (nat * string) (list Listener)) : gmap (nat * string) (list Listener) :=
  <[(obj, ev) := default [] (ls !! (obj, ev)) ++ [l]]> ls.

Definition on (obj : nat) (ev : string) (l : Listener) : M unit :=
  modify (set_listeners (add_listener obj ev l)).

(** [obj.removeAllListeners(ev)] *)
Definition removeAllListeners (obj : nat) (ev : string) : M unit :=
  modify (set_listeners (delete (obj, ev))).

Definition setTimeout (cb : TimerCallback) (ms : Z) : M nat :=
  t <- alloc ;;
  modify (set_timers <[t := (cb, ms)]>) ;;
  ret t.

(** [clearTimeout(t)]; [clearTimeout(undefined)] does nothing. *)
Definition clearTimeout (t : option nat) : M unit :=
  match t with
  | Some t' => modify (set_timers (delete t'))
  | None => ret tt
  end.

Definition console_error (e : string) : M unit := modify (log (ConsoleError e)).
Definition console_warn (args : list Value) : M unit := modify (log (ConsoleWarn args)).

(** `flic-${bdAddr}` *)
Definition device_id (bdAddr : string) : string := "flic-" +:+ bdAddr.

Definition TypeError : string := "TypeError".

(** Assignments to the locals of an [addDevice] call. *)
Definition with_timeout (t : option nat) (a : Attempt) : Attempt :=
  mkAttempt (a_bdAddr a) (a_name a) t (a_p a) (a_awaiting a).
Definition with_p (p : Promise) (a : Attempt) : Attempt :=
  mkAttempt (a_bdAddr a) (a_name a) (a_timeout a) p (a_awaiting a).
Definition with_awaiting (b : bool) (a : Attempt) : Attempt :=
  mkAttempt (a_bdAddr a) (a_name a) (a_timeout a) (a_p a) b.

(** A promise settles once: [resolve] and [reject] on a settled promise do
    nothing. *)
Definition settle (p : Promise) (a : Attempt) : Attempt :=
  match a_p a with
  | Pending => with_p p a
  | _ => a
  end.

Definition resolve (cc : nat) : M unit :=
  modify (set_attempts (alter (settle (Fulfilled cc)) cc)).
Definition reject (cc : nat) (reason : string) : M unit :=
  modify (set_attempts (alter (settle (Rejected reason)) cc)).

Definition settled (p : Promise) : bool :=
  match p with
  | Pending => false
  | _ => true
  end.

(** Property values reported to the gateway. *)
Definition with_pushed (v : bool) (b : FlicButton) : FlicButton :=
  mkFlicButton (b_id b) (b_name b) (b_bdAddr b) (b_cc b) (b_battery b) v
               (b_batteryStatusListener b).
Definition with_battery (v : Z) (b : FlicButton) : FlicButton :=
  mkFlicButton (b_id b) (b_name b) (b_bdAddr b) (b_cc b) v (b_pushed b)
               (b_batteryStatusListener b).

(** One turn of the event loop. *)
Inductive Event :=
| ClientReady (bdAddrOfVerifiedButtons : list string)
| StartPairing (timeoutSeconds : Z)
| CancelPairing
| RemoveThing (thing : nat)
| Emit (obj : nat) (s : Signal)
| Fire (t : nat)
| Resume (cc : nat).

(** ** Starting and stopping the daemon *)

(** What the process finds around it.  [path_join] is Node's [path.join],
    left to the library. *)
Record Host := mkHost {
  platform : string;                  (* process.platform *)
  arch : string;                      (* process.arch *)
  env : gmap string string;           (* process.env *)
  homedir : string;                   (* os.homedir() *)
  dirname : string;                   (* __dirname *)
  path_join : list string → string    (* path.join(...) *)
}.

(** [static get PORT()] *)
Definition PORT : Z := 5551.

(** [static getConfigDirectory()] *)
Definition getConfigDirectory (h : Host) : string :=
  match env h !! "MOZIOT_HOME" with
  | Some home => path_join h [home; "config"]
  | None => path_join h [homedir h; ".mozilla-iot"; "config"]
  end.

(** [static getBinaryDirectory()]; an [Error] is its message. *)
Definition getBinaryDirectory (h : Host) : Res string :=
  if bool_decide (arch h = "arm") || bool_decide (arch h = "arm64") then Ret "armv6l"
  else if bool_decide (arch h = "ia32") || bool_decide (arch h = "x32") then Ret "i386"
  else if bool_decide (arch h = "x64") then Ret "x86_64"
  else Throw ("Platform " +:+ arch h +:+ " not supported").

(** [static getBinaryPath()] *)
Definition getBinaryPath (h : Host) : Res string :=
  if negb (bool_decide (platform h = "linux")) then
    Throw "No binary bundled for this platform"
  else
    match getBinaryDirectory h with
    | Ret directory =>
        Ret (path_join h [dirname h; "fliclib-linux-hci"; "bin"; directory; "flicd"])
    | Throw e => Throw e
    end.

(** What the adapter does to its surroundings when it starts and stops. *)
Inductive Action :=
| AddAdapter                              (* addonManager.addAdapter(this) *)
| Warn (msg : string)                     (* console.warn *)
| Exec (command cwd : string)             (* childProcess.exec *)
| NewClient (host : string) (port : Z)    (* new flic.FlicClient *)
| Close                                   (* this.client.close() *)
| Kill                                    (* this.flicd.kill() *)
| LogError (e : option string)            (* console.error(e), e an error or null *)
| SuperUnload.                            (* super.unload() *)

(** The fields of the adapter that starting and stopping read and write. *)
Record Supervisor := mkSupervisor {
  flicd : option string;    (* this.flicd: the child process, by its command line *)
  hasDaemon : bool;         (* this.hasDaemon *)
  client : bool;            (* this.client is set *)
  trail : list Action
}.

Definition note (a : Action) (s : Supervisor) : Supervisor :=
  mkSupervisor (flicd s) (hasDaemon s) (client s) (trail s ++ [a]).

Definition quote : string := String (Ascii.ascii_of_nat 34) EmptyString.

(** The command line of the daemon:
    `sudo ${binaryPath} -f "${dbPath}" -p ${FlicAdapter.PORT} -w` *)
Definition daemon_command (binaryPath dbPath : string) : string :=
  "sudo " +:+ binaryPath +:+ " -f " +:+ quote +:+ dbPath +:+ quote
  +:+ " -p " +:+ pretty PORT +:+ " -w".

(** [startDaemon()] *)
Definition startDaemon (h : Host) (s : Supervisor) : Res unit * Supervisor :=
  if negb (bool_decide (platform h = "linux")) then
    (Ret tt, note (Warn "You have to manually start the flic daemon") s)
  else
    match getBinaryPath h with
    | Throw e => (Throw e, s)
    | Ret binaryPath =>
        let dbPath := path_join h [getConfigDirectory h; "flicdb.sqlite"] in
        let command := daemon_command binaryPath dbPath in
        let s' := note (Exec command (dirname h)) s in
        (Ret tt, mkSupervisor (Some command) true (client s') (trail s'))
    end.

(** The constructor of [FlicAdapter], as far as starting goes: the adapter
    is announced, the daemon started, the client created. *)
Definition FlicAdapter_new (h : Host) : Res unit * Supervisor :=
  match startDaemon h (note AddAdapter (mkSupervisor None false false [])) with
  | (Throw e, s) => (Throw e, s)
  | (Ret _, s) =>
      let s' := note (NewClient "localhost" PORT) s in
      (Ret tt, mkSupervisor (flicd s') (hasDaemon s') true (trail s'))
  end.

(** [unload()] of the adapter. *)
Definition adapter_unload (s : Supervisor) : Supervisor :=
  let s1 := if client s then note Close s else s in
  let s2 := match flicd s1 with
            | Some _ => note Kill s1
            | None => s1
            end in
  note SuperUnload s2.

(** The callback given to [exec], run when the child has ended; there is
    a child exactly while [this.flicd] is set. *)
Definition onDaemonExit (e : option string) (s : Supervisor) : Supervisor :=
  match flicd s with
  | Some _ =>
      adapter_unload (note (LogError e) (mkSupervisor None (hasDaemon s) (client s) (trail s)))
  | None => s
  end.

(** What can happen to a started adapter. *)
Inductive Turn :=
| Unload                        (* the host calls unload() *)
| DaemonExit (e : option string).

Definition supervise (s : Supervisor) (t : Turn) : Supervisor :=
  match t with
  | Unload => adapter_unload s
  | DaemonExit e => onDaemonExit e s
  end.

(** The supported architectures. *)
Definition supported : list string := ["arm"; "arm64"; "ia32"; "x32"; "x64"].

(** A Raspberry Pi, a desktop Mac and a Linux machine on a RISC-V
    processor; paths are joined with slashes. *)
Definition slashes (parts : list string) : string :=
  foldr (fun part rest => if bool_decide (rest = "") then part else part +:+ "/" +:+ rest)
        "" parts.
Definition raspberry : Host :=
  mkHost "linux" "arm" ∅ "/home/pi" "/home/pi/flic-button-adapter" slashes.
Definition macbook : Host :=
  mkHost "darwin" "x64" ∅ "/Users/me" "/Users/me/flic-button-adapter" slashes.
Definition riscv : Host :=
  mkHost "linux" "riscv64" ∅ "/root" "/root/flic-button-adapter" slashes.

(** ** Sample client libraries and runs *)

(** A client library that never throws. *)
Definition reliable : list Effect → ClientCmd → option string := fun _ _ => None.

(** A client library that refuses new connection channels. *)
Definition offline : list Effect → ClientCmd → option string :=
  fun _ c => match c with
             | AddConnectionChannel _ => Some "Error: not connected"
             | _ => None
             end.

Definition kitchen : string := "80:e4:da:70:aa:bb".

(** A pairing session of 60 seconds that discovers the public, unverified
    button [kitchen], advertised under the name "Kitchen".  The scanner is
    object 0, the pairing timer 1, the connection channel 2. *)
Definition discovered : list Event :=
  [StartPairing 60; Emit 0 (advertisementPacket kitchen "Kitchen" (-60) false false)].

(** ... and the daemon has too many pending connections. *)
Definition rejected : list Event :=
  discovered ++ [Emit 2 (createResponse "MaxPendingConnectionsReached" "Disconnected");
                 Resume 2].

(** ... and the daemon accepts the channel, then stays silent until the
    deadline timer (object 3) fires. *)
Definition waiting : list Event :=
  discovered ++ [Emit 2 (createResponse "NoError" "Disconnected")].
Definition deadline_passed : list Event := waiting ++ [Fire 3].

(** ... and the button connects. *)
Definition connected : list Event :=
  discovered ++ [Emit 2 (createResponse "NoError" "Disconnected");
                 Emit 2 (connectionStatusChanged "Ready" "Unspecified");
                 Resume 2].

(** ... and pairing is cancelled and started again while the attempt is
    still in flight, and the button advertises once more. *)
Definition rediscovered : list Event :=
  discovered ++ [CancelPairing; StartPairing 60;
                 Emit 3 (advertisementPacket kitchen "Kitchen" (-60) false false)].

(** Start-up with one button the daemon has already verified (channel 0,
    button 1, battery listener 2), which the host then removes. *)
Definition replayed : list Event := [ClientReady [kitchen]].
Definition replayed_then_removed : list Event := replayed ++ [RemoveThing 1].

Section Adapter.

(** The [FlicClient] is an opaque library.  Whether one of its methods
    throws is left to it: [client_throws] decides from what has happened so
    far. *)
Variable client_throws : list Effect → ClientCmd → option string.

(** [this.client.<cmd>(...)] with [this] the adapter.  The call is
    recorded whether or not the library then throws. *)
Definition client_call (c : ClientCmd) : M unit :=
  fun w => match client_throws (effects w) c with
           | Some e => (Throw e, log (Client c) w)
           | None => (Ret tt, log (Client c) w)
           end.

(** [this.client] for an arbitrary [this]: a [Timeout] object has no
    [client] property, so the member access on [undefined] throws. *)
Definition this_client_call (this : This) (c : ClientCmd) : M unit :=
  match this with
  | ThisAdapter => client_call c
  | ThisTimeout _ => throw TypeError
  end.

(** *** Base class [Adapter] of the gateway add-on library *)

(** Modelled from the spec: [Adapter.handleDeviceAdded] of the gateway
    add-on library, which is not part of the sources.  The registry maps
    the device id to its live device object, and the device is published
    to the host ([registerDevice]). *)
Definition handleDeviceAdded (thing : nat) : M unit :=
  w <- get ;;
  match buttons w !! thing with
  | Some b =>
      modify (set_devices <[b_id b := thing]>) ;;
      modify (log (HostDeviceAdded thing))
  | None => throw TypeError
  end.

(** Modelled from the spec: [Adapter.removeThing] of the gateway add-on
    library, which is not part of the sources.  The device is removed from
    the registry by its id and the host is told ([unregisterDevice]). *)
Definition super_removeThing (thing : nat) : M unit :=
  w <- get ;;
  match buttons w !! thing with
  | Some b =>
      modify (set_devices (delete (b_id b))) ;;
      modify (log (HostDeviceRemoved thing))
  | None => throw TypeError
  end.

(** *** class FlicButton *)

(** [constructor(adapter, bdAddr, cc, client, name)].  The parameters are
    positional; [adapter] is the one adapter of the world. *)
Definition FlicButton_new (bdAddr : string) (cc : nat) (client name : Value) : M nat :=
  this <- alloc ;;
  l <- alloc ;;                       (* new flic.FlicBatteryStatusListener(bdAddr) *)
  modify (set_buttons <[this :=
    mkFlicButton (device_id bdAddr)
                 (if truthy name then text name else "Flic button " +:+ bdAddr)
                 bdAddr cc 100 false l]>) ;;
  on cc "buttonUpOrDown" (OnButtonUpOrDown this) ;;
  on cc "buttonSingleOrDoubleClickOrHold" (OnButtonSingleOrDoubleClickOrHold this) ;;
  on l "batteryStatus" (OnBatteryStatus this) ;;
  client_call (AddBatteryStatusListener l) ;;
  handleDeviceAdded this ;;
  ret this.

(** [unload()] *)
Definition unload (thing : nat) : M unit :=
  w <- get ;;
  match buttons w !! thing with
  | Some b =>
      removeAllListeners (b_cc b) "buttonUpOrDown" ;;
      client_call (RemoveConnectionChannel (b_cc b)) ;;
      client_call (RemoveBatteryStatusListener (b_batteryStatusListener b))
  | None => throw TypeError
  end.

(** The three listeners of the constructor. *)
Definition onButtonUpOrDown (this : nat) (clickType : string) : M unit :=
  modify (set_buttons (alter (with_pushed (bool_decide (clickType = "ButtonDown"))) this)) ;;
  modify (log (HostPropertyChanged this "pushed")).

Definition onButtonSingleOrDoubleClickOrHold (this : nat) (clickType : string) : M unit :=
  if bool_decide (clickType = "ButtonHold") then
    modify (log (HostEvent this "hold"))
  else if bool_decide (clickType = "ButtonDoubleClick") then
    modify (log (HostEvent this "doubleClick"))
  else if bool_decide (clickType = "ButtonSingleClick") then
    modify (log (HostEvent this "singleClick"))
  else ret tt.

Definition onBatteryStatus (this : nat) (percentage : Z) : M unit :=
  modify (set_buttons (alter (with_battery percentage) this)) ;;
  modify (log (HostPropertyChanged this "battery")).

(** *** class FlicAdapter *)

(** The three listeners [addDevice] puts on its channel. *)
Definition onCreateResponse (cc : nat) (error connectionStatus : string) : M unit :=
  if bool_decide (connectionStatus = "Ready") then resolve cc
  else if negb (bool_decide (error = "NoError")) then reject cc "Too many pending connections"
  else
    t <- setTimeout (RemoveChannelAfterDeadline cc) (30 * 1000) ;;
    modify (set_attempts (alter (with_timeout (Some t)) cc)).

Definition onConnectionStatusChanged (cc : nat) (connectionStatus disconnectReason : string)
    : M unit :=
  if bool_decide (connectionStatus = "Ready") then resolve cc else ret tt.

Definition onRemoved (cc : nat) (removedReason : string) : M unit :=
  if bool_decide (removedReason = "RemovedByThisClient") then reject cc "Timed out"
  else reject cc removedReason.

(** The [finally] block of [addDevice]. *)
Definition addDevice_finally (bdAddr : string) (cc : nat) : M unit :=
  w <- get ;;
  (match attempts w !! cc with
   | Some a => clearTimeout (a_timeout a)       (* if(timeout) clearTimeout(timeout) *)
   | None => ret tt
   end) ;;
  removeAllListeners cc "createResponse" ;;
  removeAllListeners cc "connectionStatusChanged" ;;
  removeAllListeners cc "removed" ;;
  modify (set_connecting (fun s => s ∖ {[bdAddr]})).

(** [addDevice] from the [try] statement on, given how its [try] block
    ends: the [catch] and [finally] blocks, then the statement after them,
    [new FlicButton(this, bdAddr, cc, name)].  That call passes four
    arguments to a constructor of five parameters: [name] lands in the
    parameter [client] and the parameter [name] is [undefined]. *)
Definition addDevice_rest (bdAddr : string) (name : Value) (cc : nat) (try_block : M unit)
    : M unit :=
  try_catch_finally
    try_block
    (fun e => console_error e ;; client_call (RemoveConnectionChannel cc))
    (addDevice_finally bdAddr cc) ;;
  _ <- FlicButton_new bdAddr cc name Undefined ;;
  ret tt.

(** [async addDevice(bdAddr, name, tryToConnect = true)], up to the point
    where control goes back to the event loop: either the end of the
    function or [await p]. *)
Definition addDevice (bdAddr : string) (name : Value) (tryToConnect : bool) : M unit :=
  w <- get ;;
  if bool_decide (device_id bdAddr ∈ dom (devices w)) || bool_decide (bdAddr ∈ connecting w)
  then ret tt
  else
    cc <- alloc ;;                    (* new flic.FlicConnectionChannel(bdAddr) *)
    modify (set_channels <[cc := bdAddr]>) ;;
    if tryToConnect then
      modify (set_connecting (fun s => s ∪ {[bdAddr]})) ;;
      modify (set_attempts <[cc := mkAttempt bdAddr name None Pending false]>) ;;
      on cc "createResponse" (OnCreateResponse cc) ;;
      on cc "connectionStatusChanged" (OnConnectionStatusChanged cc) ;;
      on cc "removed" (OnRemoved cc) ;;
      r <- outcome (client_call (AddConnectionChannel cc)) ;;
      match r with
      | Ret _ =>                        (* await p *)
          modify (set_attempts (alter (with_awaiting true) cc))
      | Throw e => addDevice_rest bdAddr name cc (throw e)
      end
    else
      client_call (AddConnectionChannel cc) ;;
      _ <- FlicButton_new bdAddr cc name Undefined ;;
      ret tt.

(** The continuation of [await p], run once [p] is settled. *)
Definition addDevice_resume (cc : nat) : M unit :=
  w <- get ;;
  match attempts w !! cc with
  | Some a =>
      if a_awaiting a && settled (a_p a) then
        modify (set_attempts (alter (with_awaiting false) cc)) ;;
        addDevice_rest (a_bdAddr a) (a_name a) cc
          (match a_p a with
           | Rejected reason => throw reason
           | _ => ret tt
           end)
      else ret tt
  | None => ret tt
  end.

(** [removeThing(thing)] *)
Definition removeThing (thing : nat) : M unit :=
  unload thing ;;
  w <- get ;;
  match buttons w !! thing with
  | Some b => client_call (DeleteButton (b_bdAddr b))
  | None => throw TypeError
  end ;;
  super_removeThing thing.

(** [cancelPairing()] *)
Definition cancelPairing : M unit :=
  w <- get ;;
  client_call (RemoveScanner (scanner w)) ;;
  clearTimeout (timeout w) ;;
  modify (set_timeout None) ;;
  modify (set_connecting (fun _ => ∅)).

(** [startPairing(timeoutSeconds)] *)
Definition startPairing (timeoutSeconds : Z) : M unit :=
  w <- get ;;
  match timeout w with
  | None =>
      s <- alloc ;;                   (* new flic.FlicScanner() *)
      modify (set_scanner (Some s)) ;;
      t <- setTimeout CancelPairingAfterDeadline (timeoutSeconds * 1000) ;;
      modify (set_timeout (Some t)) ;;
      on s "advertisementPacket" OnAdvertisementPacket ;;
      client_call (AddScanner s)
  | Some _ => ret tt
  end.

(** The listener of [startPairing]. *)
Definition onAdvertisementPacket (bdAddr name : string) (rssi : Z)
    (isPrivate alreadyVerified : bool) : M unit :=
  if isPrivate then
    console_warn [Str "Your button"; Str name;
                  Str "is private. Hold down for 7 seconds to make it public."]
  else
    call_async (addDevice bdAddr (Str name) true).

(** The callback of [client.once('ready')] in the constructor, with what
    [getInfo] reports as [bdAddrOfVerifiedButtons]. *)
Definition onReady (bdAddrOfVerifiedButtons : list string) : M unit :=
  for_each bdAddrOfVerifiedButtons (fun bdAddr => call_async (addDevice bdAddr Undefined false)).

(** ** The event loop *)

Definition run_listener (l : Listener) (s : Signal) : M unit :=
  match l, s with
  | OnCreateResponse cc, createResponse error connectionStatus =>
      onCreateResponse cc error connectionStatus
  | OnConnectionStatusChanged cc, connectionStatusChanged connectionStatus disconnectReason =>
      onConnectionStatusChanged cc connectionStatus disconnectReason
  | OnRemoved cc, removed removedReason => onRemoved cc removedReason
  | OnButtonUpOrDown this, buttonUpOrDown clickType => onButtonUpOrDown this clickType
  | OnButtonSingleOrDoubleClickOrHold this, buttonSingleOrDoubleClickOrHold clickType =>
      onButtonSingleOrDoubleClickOrHold this clickType
  | OnBatteryStatus this, batteryStatus percentage => onBatteryStatus this percentage
  | OnAdvertisementPacket, advertisementPacket bdAddr name rssi isPrivate alreadyVerified =>
      onAdvertisementPacket bdAddr name rssi isPrivate alreadyVerified
  | _, _ => ret tt
  end.

(** [obj.emit(event_name s, ...)]: the listeners registered at that moment
    run in registration order. *)
Definition emit (obj : nat) (s : Signal) : M unit :=
  w <- get ;;
  for_each (listeners_of w obj (event_name s)) (fun l => run_listener l s).

(** A timer that is still armed fires once; its callback runs with [this]
    bound to the [Timeout] object, which only a [function] notices. *)
Definition fire (t : nat) : M unit :=
  w <- get ;;
  match timers w !! t with
  | Some (cb, _) =>
      modify (set_timers (delete t)) ;;
      match cb with
      | RemoveChannelAfterDeadline cc =>
          this_client_call (ThisTimeout t) (RemoveConnectionChannel cc)
      | CancelPairingAfterDeadline => cancelPairing
      end
  | None => ret tt
  end.

Definition handle (ev : Event) : M unit :=
  match ev with
  | ClientReady l => onReady l
  | StartPairing timeoutSeconds => startPairing timeoutSeconds
  | CancelPairing => cancelPairing
  | RemoveThing thing => removeThing thing
  | Emit obj s => emit obj s
  | Fire t => fire t
  | Resume cc => call_async (addDevice_resume cc)
  end.

(** An exception that escapes a turn is nobody's to catch. *)
Definition step (w : World) (ev : Event) : World :=
  match handle ev w with
  | (Ret _, w') => w'
  | (Throw e, w') => log (Uncaught e) w'
  end.

Definition run (w : World) (evs : list Event) : World := foldl step w evs.

(** ** Vocabulary of the properties *)

(** The world a [FlicButton] constructor leaves behind when it reaches
    its call of [addBatteryStatusListener]. *)
Definition constructing (bdAddr : string) (cc : nat) (name : Value) (w : World) : World :=
  log (Client (AddBatteryStatusListener (S (next w))))
    (set_listeners
       (fun ls =>
          add_listener (S (next w)) "batteryStatus" (OnBatteryStatus (next w))
            (add_listener cc "buttonSingleOrDoubleClickOrHold"
               (OnButtonSingleOrDoubleClickOrHold (next w))
               (add_listener cc "buttonUpOrDown" (OnButtonUpOrDown (next w)) ls)))
       (set_buttons
          <[next w := mkFlicButton (device_id bdAddr)
                        (if truthy name then text name else "Flic button " +:+ bdAddr)
                        bdAddr cc 100 false (S (next w))]>
          (set_next (S (S (next w))) w))).

(** What the [finally] block of [addDevice] does to the world. *)
Definition torn_down (bdAddr : string) (cc : nat) (w : World) : World :=
  set_connecting (fun s => s ∖ {[bdAddr]})
    (set_listeners
       (fun ls => delete (cc, "removed")
                    (delete (cc, "connectionStatusChanged")
                       (delete (cc, "createResponse") ls)))
       (set_timers
          (match attempts w !! cc with
           | Some a => match a_timeout a with
                       | Some t => delete t
                       | None => fun ts => ts
                       end
           | None => fun ts => ts
           end) w)).

(** What the [catch] block does before it calls the client. *)
Definition caught (cc : nat) (e : string) (w : World) : World :=
  log (Client (RemoveConnectionChannel cc)) (log (ConsoleError e) w).

(** The attempt on channel [cc] for [bdAddr], whose [timeout] variable
    holds [t], has left nothing behind: that timer is not armed, none of its
    three listeners is registered, and the address is not pending. *)
Definition torn (bdAddr : string) (cc : nat) (t : option nat) (w : World) : Prop :=
  (∀ t', t = Some t' → timers w !! t' = None) ∧
  listeners_of w cc "createResponse" = [] ∧
  listeners_of w cc "connectionStatusChanged" = [] ∧
  listeners_of w cc "removed" = [] ∧
  bdAddr ∉ connecting w.

(** The events an attempt listens to on its channel. *)
Definition attempt_event (ev : string) : Prop :=
  ev = "createResponse" ∨ ev = "connectionStatusChanged" ∨ ev = "removed".

(** The address an attempt is connecting, while it is suspended. *)
Definition flying (a : Attempt) : option string :=
  if a_awaiting a then Some (a_bdAddr a) else None.

(** The attempts in flight (suspended at [await p], not yet resolved), by
    channel, with the address each is connecting. *)
Definition flight (w : World) : gmap nat string := omap flying (attempts w).

(** How many attempts in flight and registered devices there are for an
    address. *)
Definition occupancy (w : World) (bdAddr : string) : nat :=
  (size (filter (λ kv : nat * string, kv.2 = bdAddr) (flight w))
   + match devices w !! device_id bdAddr with
     | Some _ => 1
     | None => 0
     end)%nat.

(** No attempt is in flight. *)
Definition idle (w : World) : bool := bool_decide (flight w = ∅).

(** Does this turn run [cancelPairing]? *)
Definition cancels (w : World) (ev : Event) : bool :=
  match ev with
  | CancelPairing => true
  | Fire t => match timers w !! t with
              | Some (CancelPairingAfterDeadline, _) => true
              | _ => false
              end
  | _ => false
  end.

(** A run in which [cancelPairing] never executes while an attempt is in
    flight. *)
Fixpoint calm (w : World) (evs : list Event) : bool :=
  match evs with
  | [] => true
  | ev :: evs' => implb (cancels w ev) (idle w) && calm (step w ev) evs'
  end.

(** The invariant behind the gate of [addDevice]: an address with an
    attempt in flight is in the [connecting] set and has no registered
    device, and no two attempts in flight share an address. *)
Definition Inv (w : World) : Prop :=
  (∀ cc b, flight w !! cc = Some b →
           b ∈ connecting w ∧ devices w !! device_id b = None) ∧
  (∀ cc1 cc2 b, flight w !! cc1 = Some b → flight w !! cc2 = Some b → cc1 = cc2).

(** A computation preserves an invariant of the world, however it ends. *)
Definition Pres (I : World → Prop) {A} (m : M A) : Prop :=
  ∀ w r w', I w → m w = (r, w') → I w'.

(** Invariants that do not look at what has been observed from outside. *)
Class Unobserved (I : World → Prop) : Prop :=
  unobserved : ∀ e w, I w → I (log e w).

(** No attempt in flight is connecting this address. *)
Definition vacant (bdAddr : string) (w : World) : Prop :=
  ∀ cc, flight w !! cc ≠ Some bdAddr.

(** The channel carries exactly the three listeners of its attempt. *)
Definition wired (w : World) (cc : nat) : Prop :=
  listeners w !! (cc, "createResponse") = Some [OnCreateResponse cc] ∧
  listeners w !! (cc, "connectionStatusChanged") = Some [OnConnectionStatusChanged cc] ∧
  listeners w !! (cc, "removed") = Some [OnRemoved cc].

(** The scanner of the pairing session carries exactly the listener of
    [startPairing]. *)
Definition Scanned (w : World) : Prop :=
  ∀ s, scanner w = Some s →
       listeners w !! (s, "advertisementPacket") = Some [OnAdvertisementPacket].

(** Every attempt in flight is wired, and the objects in use were
    allocated. *)
Definition Wf (w : World) : Prop :=
  (∀ cc b, flight w !! cc = Some b → (cc < next w)%nat ∧ wired w cc) ∧
  (∀ o ev, is_Some (listeners w !! (o, ev)) → (o < next w)%nat).

(** Every armed pairing deadline is the one held in [this.timeout]. *)
Definition Paired (w : World) : Prop :=
  ∀ t ms, timers w !! t = Some (CancelPairingAfterDeadline, ms) → timeout w = Some t.

(** The armed timers were allocated. *)
Definition Fresh (w : World) : Prop :=
  ∀ t, is_Some (timers w !! t) → (t < next w)%nat.

(** Every address in the [connecting] set has its attempt in flight. *)
Definition NoStale (w : World) : Prop :=
  ∀ b, b ∈ connecting w → ∃ cc, flight w !! cc = Some b.

(** The two together: what keeps the [connecting] set free of stale
    addresses from one turn to the next. *)
Definition Tracked (w : World) : Prop := Wf w ∧ NoStale w.

(** The gate of [addDevice]: the address has a registered device or is
    being connected. *)
Definition gated (w : World) (bdAddr : string) : bool :=
  bool_decide (device_id bdAddr ∈ dom (devices w)) || bool_decide (bdAddr ∈ connecting w).

(** The addresses of a list that are not [closed], each at its first
    occurrence. *)
Fixpoint firsts (closed : string → bool) (l : list string) : list string :=
  match l with
  | [] => []
  | a :: l' =>
      if closed a then firsts closed l'
      else a :: firsts (fun x => bool_decide (x = a) || closed x) l'
  end.

(** The world after [addDevice(bdAddr, undefined, false)] has registered
    a button, the client having taken both calls: the channel is object
    [next w], the button the object after it, its battery listener the
    one after that. *)
Definition registered (bdAddr : string) (w : World) : World :=
  log (HostDeviceAdded (S (next w)))
    (set_devices <[device_id bdAddr := S (next w)]>
       (constructing bdAddr (next w) Undefined
          (log (Client (AddConnectionChannel (next w)))
             (set_channels <[next w := bdAddr]> (set_next (S (next w)) w))))).

(** What the client and the host see of [n] such registrations in a row,
    the first on channel [cc]. *)
Fixpoint registrations (cc : nat) (n : nat) : list Effect :=
  match n with
  | O => []
  | S n' => [Client (AddConnectionChannel cc);
             Client (AddBatteryStatusListener (S (S cc)));
             HostDeviceAdded (S cc)] ++ registrations (S (S (S cc))) n'
  end.

(** Is this turn the daemon's response to the creation of channel [cc]? *)
Definition answer (cc : nat) (ev : Event) : bool :=
  match ev with
  | Emit obj (createResponse _ _) => bool_decide (obj = cc)
  | _ => false
  end.

(** How many responses to its creation channel [cc] gets in a run. *)
Fixpoint answers (cc : nat) (evs : list Event) : nat :=
  match evs with
  | [] => 0
  | ev :: evs' => (if answer cc ev then 1 else 0) + answers cc evs'
  end.

(** What ties the deadline timers of channel [cc] to the [timeout]
    variable of its attempt: a [createResponse] listener is the one of an
    attempt, alone on the channel of that attempt; the attempts were
    allocated; before the response to its creation the attempt on [cc]
    holds no timer; and every armed deadline timer of [cc] is the one held
    in [timeout]. *)
Definition Deadlines (cc : nat) (answered : bool) (w : World) : Prop :=
  (∀ o ls, listeners w !! (o, "createResponse") = Some ls →
           ls = [OnCreateResponse o] ∧ is_Some (attempts w !! o)) ∧
  (∀ c, is_Some (attempts w !! c) → (c < next w)%nat) ∧
  (answered = false → ∀ a, attempts w !! cc = Some a → a_timeout a = None) ∧
  (∀ t ms, timers w !! t = Some (RemoveChannelAfterDeadline cc, ms) →
           ∃ a, attempts w !! cc = Some a ∧ a_timeout a = Some t).

(** * Properties *)

(** ** Running the event loop symbolically *)

Lemma emit_nil obj s w :
  listeners_of w obj (event_name s) = [] → emit obj s w = (Ret tt, w).
Proof. intros H. unfold emit, bind, get. rewrite H. reflexivity. Qed.

Lemma emit_one obj s l w :
  listeners_of w obj (event_name s) = [l] →
  emit obj s w = (run_listener l s ;; ret tt) w.
Proof. intros H. unfold emit, bind, get. rewrite H. reflexivity. Qed.

Lemma handleDeviceAdded_eq thing b w :
  buttons w !! thing = Some b →
  handleDeviceAdded thing w
  = (Ret tt, log (HostDeviceAdded thing) (set_devices <[b_id b := thing]> w)).
Proof. intros H. unfold handleDeviceAdded, bind, get. rewrite H. reflexivity. Qed.

Lemma FlicButton_new_eq bdAddr cc client name w :
  FlicButton_new bdAddr cc client name w
  = match client_throws (effects w) (AddBatteryStatusListener (S (next w))) with
    | Some e => (Throw e, constructing bdAddr cc name w)
    | None => (Ret (next w),
               log (HostDeviceAdded (next w))
                 (set_devices <[device_id bdAddr := next w]> (constructing bdAddr cc name w)))
    end.
Proof.
  unfold FlicButton_new, bind, alloc, modify, on, client_call. cbn.
  destruct (client_throws (effects w) (AddBatteryStatusListener (S (next w)))) as [e|].
  - reflexivity.
  - unfold handleDeviceAdded, bind, get, modify. cbn. rewrite lookup_insert_eq. reflexivity.
Qed.

Lemma addDevice_finally_eq bdAddr cc w :
  addDevice_finally bdAddr cc w = (Ret tt, torn_down bdAddr cc w).
Proof.
  unfold addDevice_finally, torn_down, bind, get, removeAllListeners, modify.
  destruct (attempts w !! cc) as [a|]; [destruct (a_timeout a)|]; reflexivity.
Qed.

Lemma addDevice_rest_ret bdAddr name cc w :
  addDevice_rest bdAddr name cc (ret tt) w
  = (_ <- FlicButton_new bdAddr cc name Undefined ;; ret tt) (torn_down bdAddr cc w).
Proof.
  unfold addDevice_rest, try_catch_finally, bind at 1. unfold ret at 1.
  rewrite addDevice_finally_eq. reflexivity.
Qed.

Lemma addDevice_rest_throw bdAddr name cc e w :
  addDevice_rest bdAddr name cc (throw e) w
  = match client_throws (effects w ++ [ConsoleError e]) (RemoveConnectionChannel cc) with
    | Some e' => (Throw e', torn_down bdAddr cc (caught cc e w))
    | None => (_ <- FlicButton_new bdAddr cc name Undefined ;; ret tt)
                (torn_down bdAddr cc (caught cc e w))
    end.
Proof.
  unfold addDevice_rest, try_catch_finally, bind at 1. unfold throw at 1.
  unfold bind at 1, console_error, modify, client_call. cbn [effects log].
  destruct (client_throws _ _) as [e'|]; rewrite addDevice_finally_eq; reflexivity.
Qed.

Lemma resume_eq cc a w :
  attempts w !! cc = Some a → a_awaiting a = true → settled (a_p a) = true →
  addDevice_resume cc w
  = addDevice_rest (a_bdAddr a) (a_name a) cc
      (match a_p a with
       | Rejected reason => throw reason
       | _ => ret tt
       end)
      (set_attempts (alter (with_awaiting false) cc) w).
Proof.
  intros H1 H2 H3. unfold addDevice_resume, bind at 1, get. rewrite H1, H2, H3.
  reflexivity.
Qed.

(** ** Teardown *)

Lemma torn_torn_down bdAddr cc a w :
  attempts w !! cc = Some a → torn bdAddr cc (a_timeout a) (torn_down bdAddr cc w).
Proof.
  intros Ha. unfold torn, torn_down, listeners_of. cbn. rewrite Ha.
  repeat split.
  - intros t' ->. apply lookup_delete_eq.
  - rewrite !lookup_delete_ne, lookup_delete_eq by (intros [=]). reflexivity.
  - rewrite lookup_delete_ne, lookup_delete_eq by (intros [=]). reflexivity.
  - rewrite lookup_delete_eq. reflexivity.
  - rewrite elem_of_difference, elem_of_singleton. tauto.
Qed.

Lemma add_listener_other obj ev l ls obj' ev' :
  ev ≠ ev' → add_listener obj ev l ls !! (obj', ev') = ls !! (obj', ev').
Proof. intros H. unfold add_listener. apply lookup_insert_ne. congruence. Qed.

Lemma torn_constructing bdAddr cc t bdAddr' cc' name w :
  torn bdAddr cc t w → torn bdAddr cc t (constructing bdAddr' cc' name w).
Proof.
  unfold torn, constructing, listeners_of. cbn -[add_listener].
  rewrite !add_listener_other by discriminate. tauto.
Qed.

Lemma torn_log bdAddr cc t e w : torn bdAddr cc t w → torn bdAddr cc t (log e w).
Proof. exact (fun H => H). Qed.

Lemma torn_set_devices bdAddr cc t f w :
  torn bdAddr cc t w → torn bdAddr cc t (set_devices f w).
Proof. exact (fun H => H). Qed.

Lemma torn_FlicButton_new bdAddr cc t bdAddr' cc' client name w r w' :
  torn bdAddr cc t w → FlicButton_new bdAddr' cc' client name w = (r, w') →
  torn bdAddr cc t w'.
Proof.
  intros Hw. rewrite FlicButton_new_eq.
  destruct (client_throws _ _); intros [= <- <-];
    auto using torn_constructing, torn_log, torn_set_devices.
Qed.

Lemma torn_addDevice_rest bdAddr name cc body a w r w' :
  body = ret tt ∨ (∃ e, body = throw e) →
  attempts w !! cc = Some a →
  addDevice_rest bdAddr name cc body w = (r, w') →
  torn bdAddr cc (a_timeout a) w'.
Proof.
  intros [-> | [e ->]] Ha.
  - rewrite addDevice_rest_ret. unfold bind.
    destruct (FlicButton_new _ _ _ _ _) as [[] w1] eqn:E; intros [= <- <-];
      eapply torn_FlicButton_new; eauto using torn_torn_down.
  - rewrite addDevice_rest_throw.
    assert (torn bdAddr cc (a_timeout a) (torn_down bdAddr cc (caught cc e w)))
      by (apply torn_torn_down; exact Ha).
    destruct (client_throws _ _); [intros [= <- <-]; assumption|].
    unfold bind.
    destruct (FlicButton_new _ _ _ _ _) as [[] w1] eqn:E; intros [= <- <-];
      eapply torn_FlicButton_new; eauto.
Qed.

(** Once torn down, a signal of the attempt finds no listener. *)
Lemma torn_silent bdAddr cc t w s :
  torn bdAddr cc t w → attempt_event (event_name s) → emit cc s w = (Ret tt, w).
Proof.
  intros (_ & H1 & H2 & H3 & _) [E | [E | E]]; apply emit_nil; rewrite E; assumption.
Qed.

Lemma step_emit_silent bdAddr cc t w s :
  torn bdAddr cc t w → attempt_event (event_name s) → step w (Emit cc s) = w.
Proof.
  intros Hw Hs. unfold step, handle. rewrite (torn_silent _ _ _ _ _ Hw Hs). reflexivity.
Qed.

Lemma step_resume cc a w :
  attempts w !! cc = Some a → a_awaiting a = true → settled (a_p a) = true →
  step w (Resume cc)
  = match addDevice_rest (a_bdAddr a) (a_name a) cc
            (match a_p a with
             | Rejected reason => throw reason
             | _ => ret tt
             end)
            (set_attempts (alter (with_awaiting false) cc) w) with
    | (Ret _, w') => w'
    | (Throw e, w') => log (UnhandledRejection e) w'
    end.
Proof.
  intros H1 H2 H3. unfold step, handle, call_async.
  rewrite (resume_eq _ _ _ H1 H2 H3).
  destruct (addDevice_rest _ _ _ _ _) as [[] ?]; reflexivity.
Qed.

(** ** The response signal *)

Lemma step_createResponse cc error connectionStatus w :
  listeners_of w cc "createResponse" = [OnCreateResponse cc] →
  step w (Emit cc (createResponse error connectionStatus))
  = if bool_decide (connectionStatus = "Ready") then
      set_attempts (alter (settle (Fulfilled cc)) cc) w
    else if negb (bool_decide (error = "NoError")) then
      set_attempts (alter (settle (Rejected "Too many pending connections")) cc) w
    else
      set_attempts (alter (with_timeout (Some (next w))) cc)
        (set_timers <[next w := (RemoveChannelAfterDeadline cc, 30000)]>
           (set_next (S (next w)) w)).
Proof.
  intros H. unfold step, handle.
  rewrite (emit_one cc (createResponse error connectionStatus) _ w H).
  unfold run_listener, onCreateResponse.
  destruct (bool_decide (connectionStatus = "Ready")); [reflexivity|].
  destruct (bool_decide (error = "NoError")); reflexivity.
Qed.

Lemma createResponse_Ready_at w cc a error :
  attempts w !! cc = Some a → a_p a = Pending → a_awaiting a = true →
  listeners_of w cc "createResponse" = [OnCreateResponse cc] →
  let w1 := step w (Emit cc (createResponse error "Ready")) in
  let w2 := step w1 (Resume cc) in
  attempts w1 !! cc = Some (with_p (Fulfilled cc) a) ∧
  effects w1 = effects w ∧ timers w1 = timers w ∧
  (∃ b, buttons w2 !! next w = Some b ∧ b_cc b = cc ∧ b_bdAddr b = a_bdAddr a) ∧
  match client_throws (effects w) (AddBatteryStatusListener (S (next w))) with
  | None =>
      effects w2 = effects w ++ [Client (AddBatteryStatusListener (S (next w)));
                                 HostDeviceAdded (next w)] ∧
      devices w2 !! device_id (a_bdAddr a) = Some (next w)
  | Some e =>
      effects w2 = effects w ++ [Client (AddBatteryStatusListener (S (next w)));
                                 UnhandledRejection e]
  end.
Proof.
  intros Ha Hp Haw Hl w1 w2.
  assert (E1 : w1 = set_attempts (alter (settle (Fulfilled cc)) cc) w).
  { subst w1. rewrite (step_createResponse _ _ _ _ Hl). reflexivity. }
  assert (Ha1 : attempts w1 !! cc = Some (with_p (Fulfilled cc) a)).
  { rewrite E1. cbn. rewrite lookup_alter_eq, Ha. cbn. unfold settle. rewrite Hp.
    reflexivity. }
  assert (E2 : w2 = step w1 (Resume cc)) by reflexivity.
  rewrite (step_resume _ _ _ Ha1) in E2 by (cbn; auto).
  cbn [a_p with_p a_bdAddr a_name] in E2. rewrite addDevice_rest_ret in E2.
  unfold bind in E2. rewrite FlicButton_new_eq in E2.
  rewrite E1 in E2. cbn [effects torn_down set_connecting set_listeners set_timers
    set_attempts next] in E2.
  split; [exact Ha1|]. rewrite E1. split; [reflexivity|]. split; [reflexivity|].
  clear E1 Ha1. clearbody w2. subst w2.
  destruct (client_throws _ _) as [e|]; cbn.
  - split; [eexists; split; [apply lookup_insert_eq|split; reflexivity]|].
    rewrite <- app_assoc. reflexivity.
  - split; [eexists; split; [apply lookup_insert_eq|split; reflexivity]|].
    split; [rewrite <- app_assoc; reflexivity|apply lookup_insert_eq].
Qed.

Lemma createResponse_error_at w cc a error connectionStatus :
  attempts w !! cc = Some a → a_p a = Pending → a_awaiting a = true →
  listeners_of w cc "createResponse" = [OnCreateResponse cc] →
  connectionStatus ≠ "Ready" → error ≠ "NoError" →
  let w1 := step w (Emit cc (createResponse error connectionStatus)) in
  let w2 := step w1 (Resume cc) in
  attempts w1 !! cc = Some (with_p (Rejected "Too many pending connections") a) ∧
  timers w1 = timers w ∧ effects w1 = effects w ∧
  (∃ rest, effects w2 = effects w ++ ConsoleError "Too many pending connections"
                                  :: Client (RemoveConnectionChannel cc) :: rest) ∧
  timers w2 = match a_timeout a with
              | Some t => delete t (timers w)
              | None => timers w
              end.
Proof.
  intros Ha Hp Haw Hl Hs He w1 w2.
  assert (E1 : w1 = set_attempts
                      (alter (settle (Rejected "Too many pending connections")) cc) w).
  { subst w1. rewrite (step_createResponse _ _ _ _ Hl).
    rewrite (bool_decide_eq_false_2 _ Hs), (bool_decide_eq_false_2 _ He). reflexivity. }
  assert (Ha1 : attempts w1 !! cc
                = Some (with_p (Rejected "Too many pending connections") a)).
  { rewrite E1. cbn. rewrite lookup_alter_eq, Ha. cbn. unfold settle. rewrite Hp.
    reflexivity. }
  assert (E2 : w2 = step w1 (Resume cc)) by reflexivity.
  rewrite (step_resume _ _ _ Ha1) in E2 by (cbn; auto).
  cbn [a_p with_p a_bdAddr a_name] in E2. rewrite addDevice_rest_throw in E2.
  split; [exact Ha1|]. rewrite E1. split; [reflexivity|]. split; [reflexivity|].
  assert (Hlk : attempts (caught cc "Too many pending connections"
                            (set_attempts (alter (with_awaiting false) cc) w1)) !! cc
                = Some (with_awaiting false
                          (with_p (Rejected "Too many pending connections") a))).
  { cbn. rewrite lookup_alter_eq, Ha1. reflexivity. }
  unfold bind in E2. rewrite FlicButton_new_eq in E2.
  unfold torn_down in E2. rewrite Hlk in E2. cbn [a_timeout with_awaiting with_p] in E2.
  rewrite E1 in E2. clear E1 Ha1 Hlk. clearbody w2. subst w2.
  destruct (client_throws _ _) as [e1|]; [|destruct (client_throws _ _) as [e2|]];
    cbn; rewrite <- ?app_assoc; (split; [eexists; reflexivity|]);
    destruct (a_timeout a); reflexivity.
Qed.

(** ** Cancelling a pairing session *)

Lemma step_connectionStatusChanged_Ready cc disconnectReason w :
  listeners_of w cc "connectionStatusChanged" = [OnConnectionStatusChanged cc] →
  step w (Emit cc (connectionStatusChanged "Ready" disconnectReason))
  = set_attempts (alter (settle (Fulfilled cc)) cc) w.
Proof.
  intros H. unfold step, handle.
  rewrite (emit_one cc (connectionStatusChanged "Ready" disconnectReason) _ w H).
  reflexivity.
Qed.

Lemma step_cancelPairing w :
  client_throws (effects w) (RemoveScanner (scanner w)) = None →
  step w CancelPairing
  = set_connecting (fun _ => ∅)
      (set_timeout None
         (set_timers (match timeout w with
                      | Some t => delete t
                      | None => fun ts => ts
                      end)
            (log (Client (RemoveScanner (scanner w))) w))).
Proof.
  intros H. unfold step, handle, cancelPairing, bind, get, client_call. rewrite H.
  cbn. destruct (timeout w); reflexivity.
Qed.

Lemma cancelPairing_at w :
  client_throws (effects w) (RemoveScanner (scanner w)) = None →
  let w' := step w CancelPairing in
  effects w' = effects w ++ [Client (RemoveScanner (scanner w))] ∧
  timers w' = match timeout w with
              | Some t => delete t (timers w)
              | None => timers w
              end ∧
  timeout w' = None ∧
  connecting w' = ∅ ∧
  attempts w' = attempts w ∧ listeners w' = listeners w ∧ channels w' = channels w ∧
  devices w' = devices w ∧ buttons w' = buttons w ∧
  ∀ cc a disconnectReason,
    attempts w !! cc = Some a → a_p a = Pending → a_awaiting a = true →
    listeners_of w cc "connectionStatusChanged" = [OnConnectionStatusChanged cc] →
    client_throws (effects w') (AddBatteryStatusListener (S (next w))) = None →
    let w2 := step (step w' (Emit cc (connectionStatusChanged "Ready" disconnectReason)))
                   (Resume cc) in
    devices w2 !! device_id (a_bdAddr a) = Some (next w) ∧
    effects w2 = effects w' ++ [Client (AddBatteryStatusListener (S (next w)));
                                HostDeviceAdded (next w)].
Proof.
  intros Hc w'.
  assert (E : w' = step w CancelPairing) by reflexivity.
  rewrite (step_cancelPairing _ Hc) in E. clearbody w'. subst w'.
  cbn [effects timers timeout connecting attempts listeners channels devices buttons
       set_connecting set_timeout set_timers log].
  do 9 (split; [try reflexivity; destruct (timeout w); reflexivity|]).
  intros cc a r Ha Hp Haw Hl Hb.
  set (w' := set_connecting _ _).
  assert (Ha1 : attempts (set_attempts (alter (settle (Fulfilled cc)) cc) w') !! cc
                = Some (with_p (Fulfilled cc) a)).
  { cbn. rewrite lookup_alter_eq, Ha. cbn. unfold settle. rewrite Hp. reflexivity. }
  rewrite (step_connectionStatusChanged_Ready cc r w' Hl).
  rewrite (step_resume _ _ _ Ha1) by (cbn; auto).
  cbn [a_p with_p a_bdAddr a_name]. rewrite addDevice_rest_ret.
  unfold bind. rewrite FlicButton_new_eq.
  cbn [effects torn_down set_connecting set_listeners set_timers set_attempts next
       set_timeout log w'].
  rewrite Hb. cbn.
  split; [apply lookup_insert_eq|]. rewrite <- !app_assoc. reflexivity.
Qed.

(** ** One attempt or device per address *)

Lemma device_id_inj a b : device_id a = device_id b → a = b.
Proof. unfold device_id. cbn. intros [=]. assumption. Qed.

Lemma Inv_initial : Inv initial.
Proof.
  split; unfold flight; cbn; intros *; rewrite omap_empty, lookup_empty; discriminate.
Qed.

Lemma size_le_1 (m : gmap nat string) :
  (∀ i j x y, m !! i = Some x → m !! j = Some y → i = j) → (size m ≤ 1)%nat.
Proof.
  induction m as [|i x m Hi _ _] using map_first_key_ind; intros H.
  - rewrite map_size_empty. lia.
  - rewrite map_size_insert_None by assumption.
    destruct (map_choose_or_empty m) as [(j & y & Hj) | ->].
    + assert (i = j).
      { eapply (H i j); [apply lookup_insert_eq|].
        rewrite lookup_insert_ne; [exact Hj|]. intros ->. congruence. }
      congruence.
    + rewrite map_size_empty. lia.
Qed.

Lemma Inv_occupancy w bdAddr : Inv w → (occupancy w bdAddr ≤ 1)%nat.
Proof.
  intros [H1 H2]. unfold occupancy.
  destruct (devices w !! device_id bdAddr) eqn:Ed.
  - assert (filter (λ kv : nat * string, kv.2 = bdAddr) (flight w) = ∅) as ->.
    { apply map_empty. intros i. apply map_lookup_filter_None. right.
      intros b Hb Heq. cbn in Heq. subst b. destruct (H1 _ _ Hb). congruence. }
    rewrite map_size_empty. lia.
  - assert (size (filter (λ kv : nat * string, kv.2 = bdAddr) (flight w)) ≤ 1)%nat; [|lia].
    apply size_le_1. intros i j x y [Hi Ei]%map_lookup_filter_Some [Hj Ej]%map_lookup_filter_Some.
    cbn in *. subst. eauto.
Qed.

(** Flights may disappear, and the pending set and the registry may
    change at addresses that have no flight. *)
Lemma Inv_weaken w w' :
  (∀ cc b, flight w' !! cc = Some b → flight w !! cc = Some b) →
  (∀ cc b, flight w' !! cc = Some b → b ∈ connecting w → b ∈ connecting w') →
  (∀ cc b, flight w' !! cc = Some b → devices w !! device_id b = None →
           devices w' !! device_id b = None) →
  Inv w → Inv w'.
Proof.
  intros Hf Hc Hd [H1 H2]. split.
  - intros cc b Hb. destruct (H1 cc b (Hf _ _ Hb)). eauto.
  - intros cc1 cc2 b Hb1 Hb2. eauto.
Qed.

Lemma flying_alter f cc (m : gmap nat Attempt) :
  (∀ a, flying (f a) = flying a) → omap flying (alter f cc m) = omap flying m.
Proof.
  intros Hf. apply map_eq. intros i. rewrite !lookup_omap, lookup_alter.
  case_decide; [|reflexivity]. subst. destruct (m !! i); cbn; [apply Hf|reflexivity].
Qed.

Lemma flight_landed cc (m : gmap nat Attempt) i b :
  omap flying (alter (with_awaiting false) cc m) !! i = Some b →
  i ≠ cc ∧ omap flying m !! i = Some b.
Proof.
  rewrite !lookup_omap, lookup_alter. case_decide.
  - subst. destruct (m !! i); cbn; discriminate.
  - auto.
Qed.

Section Preservation.

Context (I : World → Prop) `{!Unobserved I}.

Lemma Pres_ret {A} (a : A) : Pres I (ret a).
Proof. intros w r w' H [= <- <-]. exact H. Qed.

Lemma Pres_throw {A} e : Pres I (@throw A e).
Proof. intros w r w' H [= <- <-]. exact H. Qed.

Lemma Pres_bind {A B} (m : M A) (k : A → M B) :
  Pres I m → (∀ a, Pres I (k a)) → Pres I (bind m k).
Proof.
  intros Hm Hk w r w' H. unfold bind. destruct (m w) as [[a|e] w1] eqn:E.
  - apply (Hk a). eapply Hm; eauto.
  - intros [= <- <-]. eapply Hm; eauto.
Qed.

Lemma Pres_modify f : (∀ w, I w → I (f w)) → Pres I (modify f).
Proof. intros Hf w r w' H [= <- <-]. auto. Qed.

Lemma Pres_get_bind {A} (k : World → M A) : (∀ w, Pres I (k w)) → Pres I (bind get k).
Proof. intros Hk w r w' H. unfold bind, get. apply Hk. exact H. Qed.

Lemma Pres_for_each {A} (l : list A) f : (∀ x, Pres I (f x)) → Pres I (for_each l f).
Proof.
  intros Hf. induction l as [|x l IH]; cbn; [apply Pres_ret|].
  apply Pres_bind; auto.
Qed.

Lemma Pres_outcome {A} (m : M A) : Pres I m → Pres I (outcome m).
Proof.
  intros Hm w r w' H. unfold outcome. destruct (m w) as [r1 w1] eqn:E.
  intros [= <- <-]. eapply Hm; eauto.
Qed.

Lemma Pres_try_catch_finally body handler fin :
  Pres I body → (∀ e, Pres I (handler e)) → Pres I fin →
  Pres I (try_catch_finally body handler fin).
Proof.
  intros Hb Hh Hf w r w' H. unfold try_catch_finally.
  destruct (body w) as [rb w1] eqn:Eb.
  assert (H1 : I w1) by (eapply Hb; eauto).
  assert (∃ r2 w2, match rb with
                   | Ret _ => (Ret (), w1)
                   | Throw e => handler e w1
                   end = (r2, w2) ∧ I w2) as (r2 & w2 & -> & H2).
  { destruct rb as [|e]; [eauto|]. destruct (handler e w1) as [r2 w2] eqn:Eh.
    exists r2, w2. split; [reflexivity|]. eapply Hh; eauto. }
  destruct (fin w2) as [[] w3] eqn:Ef; intros [= <- <-]; eapply Hf; eauto.
Qed.

Lemma Pres_log e : Pres I (modify (log e)).
Proof. apply Pres_modify. intros w. apply unobserved. Qed.

Lemma Pres_call_async m : Pres I m → Pres I (call_async m).
Proof.
  intros Hm w r w' H. unfold call_async. destruct (m w) as [[a|e] w1] eqn:E;
    intros [= <- <-]; [|apply unobserved]; apply (Hm _ _ _ H E).
Qed.

Lemma Pres_client_call c : Pres I (client_call c).
Proof.
  intros w r w' H. unfold client_call. destruct (client_throws _ _);
    intros [= <- <-]; apply unobserved; exact H.
Qed.

End Preservation.

(** Preservation through the structure of a computation; [leaf] settles
    the primitives that need an argument of their own. *)
Ltac pres_step I leaf :=
  lazymatch goal with
  | |- Pres _ (ret _) => apply Pres_ret
  | |- Pres _ (throw _) => apply Pres_throw
  | |- Pres _ (modify (log _)) => apply (Pres_log I)
  | |- Pres _ (client_call _) => apply (Pres_client_call I)
  | |- Pres _ (call_async _) => apply (Pres_call_async I)
  | |- Pres _ (outcome _) => apply Pres_outcome
  | |- Pres _ (try_catch_finally _ _ _) => apply Pres_try_catch_finally; [|intros ?|]
  | |- Pres _ (for_each _ _) => apply Pres_for_each; intros ?
  | |- Pres _ (bind get _) => apply Pres_get_bind; intros ?
  | |- Pres _ (bind _ _) => apply Pres_bind; [|intros ?]
  | |- Pres _ (match ?x with _ => _ end) => destruct x
  | |- Pres _ _ => first [ leaf | apply Pres_modify; exact (fun _ H => H) ]
  end.

#[local] Instance Inv_unobserved : Unobserved Inv.
Proof. intros e w H. exact H. Qed.

Lemma Pres_alloc : Pres Inv alloc.
Proof. intros w r w' H [= <- <-]. exact H. Qed.

Lemma Pres_on obj ev l : Pres Inv (on obj ev l).
Proof. apply Pres_modify. exact (fun _ H => H). Qed.

Lemma Pres_removeAllListeners obj ev : Pres Inv (removeAllListeners obj ev).
Proof. apply Pres_modify. exact (fun _ H => H). Qed.

Lemma Pres_setTimeout cb ms : Pres Inv (setTimeout cb ms).
Proof.
  unfold setTimeout. apply Pres_bind; [apply Pres_alloc|]. intros t.
  apply Pres_bind; [|intros; apply Pres_ret]. apply Pres_modify. exact (fun _ H => H).
Qed.

Lemma Pres_clearTimeout t : Pres Inv (clearTimeout t).
Proof.
  destruct t; cbn; [|apply Pres_ret]. apply Pres_modify. exact (fun _ H => H).
Qed.

(** Assignments to [timeout] and the settling of [p] leave the flights
    alone. *)
Lemma Pres_alter_attempt f cc :
  (∀ a, flying (f a) = flying a) → Pres Inv (modify (set_attempts (alter f cc))).
Proof.
  intros Hf. apply Pres_modify. intros w H.
  eapply Inv_weaken; [| | |exact H]; unfold flight; cbn;
    rewrite (flying_alter _ _ _ Hf); auto.
Qed.

Lemma flying_settle p a : flying (settle p a) = flying a.
Proof. unfold settle. destruct (a_p a); reflexivity. Qed.

Lemma Pres_resolve cc : Pres Inv (resolve cc).
Proof. apply Pres_alter_attempt. intros; apply flying_settle. Qed.

Lemma Pres_reject cc reason : Pres Inv (reject cc reason).
Proof. apply Pres_alter_attempt. intros; apply flying_settle. Qed.

Lemma Inv_FlicButton_new bdAddr cc client name w r w' :
  Inv w → vacant bdAddr w →
  FlicButton_new bdAddr cc client name w = (r, w') → Inv w'.
Proof.
  intros HI Hv. rewrite FlicButton_new_eq.
  destruct (client_throws _ _); intros [= <- <-]; [exact HI|].
  eapply Inv_weaken; [| | |exact HI]; cbn; auto.
  intros c b Hb Hd. rewrite lookup_insert_ne; [exact Hd|].
  intros E%device_id_inj. subst b. exact (Hv _ Hb).
Qed.

Lemma Inv_torn_down bdAddr cc w :
  Inv w → vacant bdAddr w → Inv (torn_down bdAddr cc w).
Proof.
  intros HI Hv. eapply Inv_weaken; [| | |exact HI]; cbn; auto.
  intros c b Hb Hc. rewrite elem_of_difference, elem_of_singleton. split; [exact Hc|].
  intros ->. exact (Hv _ Hb).
Qed.

Lemma Inv_addDevice_rest bdAddr name cc body w r w' :
  Inv w → vacant bdAddr w →
  body = ret tt ∨ (∃ e, body = throw e) →
  addDevice_rest bdAddr name cc body w = (r, w') → Inv w'.
Proof.
  intros HI Hv [-> | [e ->]].
  - rewrite addDevice_rest_ret. unfold bind.
    destruct (FlicButton_new _ _ _ _ _) as [[] w1] eqn:E; intros [= <- <-];
      (eapply Inv_FlicButton_new; [| |exact E]; [apply Inv_torn_down; assumption|exact Hv]).
  - rewrite addDevice_rest_throw.
    assert (Inv (torn_down bdAddr cc (caught cc e w)))
      by (apply Inv_torn_down; assumption).
    destruct (client_throws _ _); [intros [= <- <-]; assumption|].
    unfold bind.
    destruct (FlicButton_new _ _ _ _ _) as [[] w1] eqn:E; intros [= <- <-];
      (eapply Inv_FlicButton_new; [| |exact E]; [assumption|exact Hv]).
Qed.

(** The gate of [addDevice]: past it, the address has neither a flight nor
    a device, which is what lets a new attempt or device in. *)
Lemma Pres_addDevice bdAddr name tryToConnect : Pres Inv (addDevice bdAddr name tryToConnect).
Proof.
  intros w r w' HI. unfold addDevice, bind at 1, get.
  destruct (bool_decide (device_id bdAddr ∈ dom (devices w))) eqn:Ed;
    [intros [= <- <-]; exact HI|].
  destruct (bool_decide (bdAddr ∈ connecting w)) eqn:Ec;
    [intros [= <- <-]; exact HI|].
  apply bool_decide_eq_false in Ed, Ec. apply not_elem_of_dom in Ed.
  assert (Hv : vacant bdAddr w).
  { intros c Hc. destruct HI as [H1 _]. destruct (H1 _ _ Hc). contradiction. }
  cbn [orb]. destruct tryToConnect.
  - unfold bind, alloc, modify, on, outcome, client_call.
    cbn -[addDevice_rest add_listener].
    set (w1 := set_listeners _ _).
    assert (Hf1 : flight w1 = delete (next w) (flight w)).
    { unfold flight. cbn. rewrite omap_insert_None by reflexivity. reflexivity. }
    assert (HI1 : Inv w1).
    { eapply Inv_weaken; [| | |exact HI]; rewrite ?Hf1; cbn.
      - intros c b [_ H]%lookup_delete_Some. exact H.
      - intros c b _ H. apply elem_of_union. auto.
      - auto. }
    destruct (client_throws _ _) as [e|].
    + intros E. eapply Inv_addDevice_rest; [| | |exact E]; [exact HI1| |eauto].
      intros c. change (flight w1 !! c ≠ Some bdAddr). rewrite Hf1.
      intros [_ H]%lookup_delete_Some. exact (Hv _ H).
    + intros [= <- <-].
      assert (Hf2 : ∀ c b,
                 flight (set_attempts (alter (with_awaiting true) (next w)) w1) !! c = Some b →
                 (c = next w ∧ b = bdAddr) ∨ (c ≠ next w ∧ flight w !! c = Some b)).
      { intros c b. unfold flight. cbn. rewrite alter_insert_eq.
        rewrite omap_insert_Some with (y := bdAddr) by reflexivity.
        rewrite lookup_insert. case_decide; [intros [= <-]; auto|auto]. }
      destruct HI as [H1 H2]. split.
      * intros c b [[-> ->] | [Hne Hb]]%Hf2; cbn.
        -- split; [apply elem_of_union; right; apply elem_of_singleton; reflexivity|exact Ed].
        -- destruct (H1 _ _ Hb). split; [apply elem_of_union; auto|assumption].
      * intros c1 c2 b [[-> ->] | [Hne1 Hb1]]%Hf2 [[-> Hb] | [Hne2 Hb2]]%Hf2;
          try reflexivity; try subst b; try (exfalso; eapply Hv; eassumption); eauto.
  - unfold bind at 1, alloc. unfold bind at 1, modify. unfold bind at 1, client_call.
    cbn [effects set_channels set_next].
    destruct (client_throws _ _); [intros [= <- <-]; exact HI|].
    unfold bind. destruct (FlicButton_new _ _ _ _ _) as [[] w2] eqn:E2; intros [= <- <-];
      (eapply Inv_FlicButton_new; [| |exact E2]; [exact HI|exact Hv]).
Qed.

Lemma Pres_addDevice_resume cc : Pres Inv (addDevice_resume cc).
Proof.
  intros w r w' HI. unfold addDevice_resume, bind at 1, get.
  destruct (attempts w !! cc) as [a|] eqn:Ha; [|intros [= <- <-]; exact HI].
  destruct (a_awaiting a) eqn:Haw; [|intros [= <- <-]; exact HI].
  destruct (settled (a_p a)) eqn:Hs; [|intros [= <- <-]; exact HI].
  cbn [andb]. unfold bind at 1, modify. intros E.
  assert (Hcc : flight w !! cc = Some (a_bdAddr a)).
  { unfold flight. rewrite lookup_omap, Ha. cbn. unfold flying. rewrite Haw. reflexivity. }
  eapply Inv_addDevice_rest; [| | |exact E].
  - eapply Inv_weaken; [| | |exact HI]; cbn; auto.
    intros c b [_ H]%flight_landed. exact H.
  - intros c [Hne H]%flight_landed. destruct HI as [_ H2].
    apply Hne. exact (H2 _ _ _ H Hcc).
  - destruct (a_p a); eauto.
Qed.

Lemma Pres_run_listener l s : Pres Inv (run_listener l s).
Proof.
  destruct l, s; cbn; try apply Pres_ret.
  - unfold onCreateResponse. case_bool_decide; [apply Pres_resolve|].
    destruct (negb _); [apply Pres_reject|].
    apply Pres_bind; [apply Pres_setTimeout|]. intros t.
    apply Pres_alter_attempt. reflexivity.
  - unfold onConnectionStatusChanged. case_bool_decide; [apply Pres_resolve|apply Pres_ret].
  - unfold onRemoved. case_bool_decide; apply Pres_reject.
  - unfold onButtonUpOrDown. apply Pres_bind; [|intros; apply (Pres_log Inv)].
    apply Pres_modify. exact (fun _ H => H).
  - unfold onButtonSingleOrDoubleClickOrHold.
    repeat case_bool_decide; try apply (Pres_log Inv). apply Pres_ret.
  - unfold onBatteryStatus. apply Pres_bind; [|intros; apply (Pres_log Inv)].
    apply Pres_modify. exact (fun _ H => H).
  - unfold onAdvertisementPacket. destruct isPrivate; [apply (Pres_log Inv)|].
    apply (Pres_call_async Inv), Pres_addDevice.
Qed.

Lemma Pres_emit obj s : Pres Inv (emit obj s).
Proof.
  unfold emit. apply Pres_get_bind. intros w. apply Pres_for_each.
  intros l. apply Pres_run_listener.
Qed.

Lemma Pres_onReady l : Pres Inv (onReady l).
Proof.
  unfold onReady. apply Pres_for_each. intros x. apply (Pres_call_async Inv), Pres_addDevice.
Qed.

Lemma Pres_startPairing timeoutSeconds : Pres Inv (startPairing timeoutSeconds).
Proof.
  unfold startPairing. apply Pres_get_bind. intros w.
  destruct (timeout w); [apply Pres_ret|].
  apply Pres_bind; [apply Pres_alloc|]. intros s.
  apply Pres_bind; [apply Pres_modify; exact (fun _ H => H)|]. intros _.
  apply Pres_bind; [apply Pres_setTimeout|]. intros t.
  apply Pres_bind; [apply Pres_modify; exact (fun _ H => H)|]. intros _.
  apply Pres_bind; [apply Pres_on|]. intros _. apply (Pres_client_call Inv).
Qed.

Lemma Pres_unload thing : Pres Inv (unload thing).
Proof.
  unfold unload. apply Pres_get_bind. intros w.
  destruct (buttons w !! thing); [|apply Pres_throw].
  apply Pres_bind; [apply Pres_removeAllListeners|]. intros _.
  apply Pres_bind; [apply (Pres_client_call Inv)|]. intros _. apply (Pres_client_call Inv).
Qed.

Lemma Pres_removeThing thing : Pres Inv (removeThing thing).
Proof.
  unfold removeThing. apply Pres_bind; [apply Pres_unload|]. intros _.
  apply Pres_get_bind. intros w. apply Pres_bind.
  - destruct (buttons w !! thing); [apply (Pres_client_call Inv)|apply Pres_throw].
  - intros _. unfold super_removeThing. apply Pres_get_bind. intros w1.
    destruct (buttons w1 !! thing) as [b|]; [|apply Pres_throw].
    apply Pres_bind; [|intros; apply (Pres_log Inv)].
    apply Pres_modify. intros w2 HI. eapply Inv_weaken; [| | |exact HI]; cbn; auto.
    intros c a _ H. apply lookup_delete_None. auto.
Qed.

(** [cancelPairing] empties the pending set, which is harmless only while
    nothing is in flight. *)
Lemma Inv_cancelPairing w r w' :
  Inv w → idle w = true → cancelPairing w = (r, w') → Inv w'.
Proof.
  intros HI Hidle%bool_decide_eq_true. unfold cancelPairing, bind at 1, get.
  unfold bind at 1, client_call.
  destruct (client_throws _ _); [intros [= <- <-]; exact HI|].
  unfold bind, modify. destruct (timeout w); cbn; intros [= <- <-];
    (split; unfold flight; cbn; fold (flight w); rewrite Hidle; intros *;
     rewrite lookup_empty; discriminate).
Qed.

Lemma Inv_step w ev :
  Inv w → implb (cancels w ev) (idle w) = true → Inv (step w ev).
Proof.
  intros HI Hc. unfold step. destruct (handle ev w) as [r w'] eqn:E.
  assert (Inv w'); [|destruct r; assumption].
  destruct ev; cbn [handle] in E.
  - eapply Pres_onReady; eauto.
  - eapply Pres_startPairing; eauto.
  - eapply Inv_cancelPairing; [exact HI|exact Hc|exact E].
  - eapply Pres_removeThing; eauto.
  - eapply Pres_emit; eauto.
  - revert E. unfold fire, bind at 1, get. cbn in Hc.
    destruct (timers w !! t) as [[[cc|] ms]|]; [| |intros [= <- <-]; exact HI].
    + unfold bind, modify, throw. cbn. intros [= <- <-]. exact HI.
    + unfold bind at 1, modify. intros E.
      eapply (Inv_cancelPairing (set_timers (delete t) w)); [exact HI| |exact E].
      exact Hc.
  - eapply (Pres_call_async Inv); [apply Pres_addDevice_resume|exact HI|exact E].
Qed.

Lemma Inv_run evs : ∀ w, Inv w → calm w evs = true → Inv (run w evs).
Proof.
  induction evs as [|ev evs IH]; intros w HI Hcalm; [exact HI|].
  cbn in Hcalm. apply andb_true_iff in Hcalm as [Hc Hrest].
  cbn. apply IH; [|exact Hrest]. apply Inv_step; assumption.
Qed.

(** C4. [addDevice] does nothing at all when the address has a
    registered device or is in the [connecting] set; consequently, in every
    run of the adapter in which [cancelPairing] never executes while an
    attempt is in flight, every address has at most one attempt in flight
    or registered device. *)
Theorem addDevice_gate_keeps_one_per_address :
  (∀ w bdAddr name tryToConnect,
     device_id bdAddr ∈ dom (devices w) ∨ bdAddr ∈ connecting w →
     addDevice bdAddr name tryToConnect w = (Ret tt, w))
  ∧
  (∀ evs bdAddr,
     calm initial evs = true → (occupancy (run initial evs) bdAddr ≤ 1)%nat).
Proof.
  split.
  - intros w bdAddr name t H. unfold addDevice, bind, get.
    destruct H as [H | H].
    + rewrite (bool_decide_eq_true_2 _ H). reflexivity.
    + rewrite (bool_decide_eq_true_2 _ H). rewrite orb_true_r. reflexivity.
  - intros evs bdAddr Hcalm. apply Inv_occupancy, Inv_run; [apply Inv_initial|exact Hcalm].
Qed.

(** ** Attempts in flight keep their listeners *)

#[local] Instance Wf_unobserved : Unobserved Wf.
Proof. intros e w H. exact H. Qed.

Lemma Wf_initial : Wf initial.
Proof.
  split; unfold flight; cbn.
  - intros *. rewrite omap_empty, lookup_empty. discriminate.
  - intros o ev. rewrite lookup_empty. intros []. discriminate.
Qed.

Lemma Wf_weaken w w' :
  (∀ cc b, flight w' !! cc = Some b → flight w !! cc = Some b) →
  (next w ≤ next w')%nat →
  (∀ cc b ev, flight w' !! cc = Some b → attempt_event ev →
              listeners w' !! (cc, ev) = listeners w !! (cc, ev)) →
  (∀ o ev, is_Some (listeners w' !! (o, ev)) →
           is_Some (listeners w !! (o, ev)) ∨ (o < next w')%nat) →
  Wf w → Wf w'.
Proof.
  intros Hf Hn Hl Hk [H1 H2]. split.
  - intros cc b Hb. destruct (H1 cc b (Hf _ _ Hb)) as [Hlt (Ha & Hb' & Hc)].
    split; [lia|]. unfold wired, attempt_event in *.
    rewrite !(Hl cc b) by eauto. auto.
  - intros o ev Ho. destruct (Hk o ev Ho) as [H | H]; [|exact H].
    specialize (H2 _ _ H). lia.
Qed.

Lemma Wf_alloc : Pres Wf alloc.
Proof.
  intros w r w' H [= <- <-]. eapply Wf_weaken; [| | | |exact H]; cbn; auto.
Qed.

Lemma Wf_setTimeout cb ms : Pres Wf (setTimeout cb ms).
Proof.
  unfold setTimeout. apply Pres_bind; [apply Wf_alloc|]. intros t.
  apply Pres_bind; [|intros; apply Pres_ret]. apply Pres_modify. exact (fun _ H => H).
Qed.

Lemma Wf_alter_attempt f cc :
  (∀ a, flying (f a) = flying a) → Pres Wf (modify (set_attempts (alter f cc))).
Proof.
  intros Hf. apply Pres_modify. intros w H.
  eapply Wf_weaken; [| | | |exact H]; unfold flight; cbn;
    rewrite ?(flying_alter _ _ _ Hf); auto.
Qed.

Lemma add_listener_is_Some obj ev l ls o ev' :
  is_Some (add_listener obj ev l ls !! (o, ev')) → o = obj ∨ is_Some (ls !! (o, ev')).
Proof.
  unfold add_listener. rewrite lookup_insert. case_decide as E; [|auto].
  injection E as -> ->. auto.
Qed.

Lemma delete_is_Some (k k' : nat * string) (ls : gmap (nat * string) (list Listener)) :
  is_Some (delete k ls !! k') → is_Some (ls !! k').
Proof. rewrite lookup_delete. case_decide; [intros []; discriminate|auto]. Qed.

Lemma attempt_event_button ev :
  attempt_event ev →
  ev ≠ "buttonUpOrDown" ∧ ev ≠ "buttonSingleOrDoubleClickOrHold" ∧
  ev ≠ "batteryStatus" ∧ ev ≠ "advertisementPacket".
Proof. intros [-> | [-> | ->]]; repeat split; discriminate. Qed.

Lemma Wf_FlicButton_new bdAddr cc client name w r w' :
  Wf w → (cc < next w)%nat →
  FlicButton_new bdAddr cc client name w = (r, w') → Wf w'.
Proof.
  intros HW Hcc. rewrite FlicButton_new_eq.
  assert (Wf (constructing bdAddr cc name w)).
  { eapply Wf_weaken; [| | | |exact HW]; cbn -[add_listener]; auto.
    - intros c b ev _ (H1 & H2 & H3 & _)%attempt_event_button.
      rewrite !add_listener_other by auto. reflexivity.
    - intros o ev [-> | [-> | [-> | H]%add_listener_is_Some]%add_listener_is_Some
                  ]%add_listener_is_Some; auto; right; lia. }
  destruct (client_throws _ _); intros [= <- <-]; assumption.
Qed.

Lemma Wf_torn_down bdAddr cc w :
  Wf w → flight w !! cc = None → Wf (torn_down bdAddr cc w).
Proof.
  intros HW Hcc. eapply Wf_weaken; [| | | |exact HW]; cbn; auto.
  - intros c b ev Hb _. change (flight w !! c = Some b) in Hb.
    rewrite !lookup_delete_ne; [reflexivity| | |]; intros [= -> _]; congruence.
  - intros o ev H. left. do 3 apply delete_is_Some in H. exact H.
Qed.

Lemma Wf_addDevice_rest bdAddr name cc body w r w' :
  Wf w → flight w !! cc = None → (cc < next w)%nat →
  body = ret tt ∨ (∃ e, body = throw e) →
  addDevice_rest bdAddr name cc body w = (r, w') → Wf w'.
Proof.
  intros HW Hf Hcc [-> | [e ->]].
  - rewrite addDevice_rest_ret. unfold bind.
    destruct (FlicButton_new _ _ _ _ _) as [[] w1] eqn:E; intros [= <- <-];
      (eapply Wf_FlicButton_new; [| |exact E]; [apply Wf_torn_down; assumption|exact Hcc]).
  - rewrite addDevice_rest_throw.
    assert (Wf (torn_down bdAddr cc (caught cc e w)))
      by (apply Wf_torn_down; assumption).
    destruct (client_throws _ _); [intros [= <- <-]; assumption|].
    unfold bind.
    destruct (FlicButton_new _ _ _ _ _) as [[] w1] eqn:E; intros [= <- <-];
      (eapply Wf_FlicButton_new; [| |exact E]; [assumption|exact Hcc]).
Qed.

Lemma add_listener_ne obj ev l ls obj' ev' :
  obj ≠ obj' → add_listener obj ev l ls !! (obj', ev') = ls !! (obj', ev').
Proof. intros H. unfold add_listener. apply lookup_insert_ne. congruence. Qed.

Lemma add_listener_fresh obj ev l ls :
  ls !! (obj, ev) = None → add_listener obj ev l ls !! (obj, ev) = Some [l].
Proof. intros H. unfold add_listener. rewrite lookup_insert_eq, H. reflexivity. Qed.

Lemma Wf_addDevice bdAddr name tryToConnect : Pres Wf (addDevice bdAddr name tryToConnect).
Proof.
  intros w r w' HW. unfold addDevice, bind at 1, get.
  destruct (_ || _); [intros [= <- <-]; exact HW|].
  assert (Hfresh : ∀ ev, listeners w !! (next w, ev) = None).
  { intros ev. apply eq_None_not_Some. intros H. destruct HW as [_ H2].
    specialize (H2 _ _ H). lia. }
  destruct tryToConnect.
  - unfold bind, alloc, modify, on, outcome, client_call.
    cbn -[addDevice_rest add_listener].
    set (w1 := set_listeners _ _).
    assert (Hf1 : flight w1 = delete (next w) (flight w)).
    { unfold flight. cbn. rewrite omap_insert_None by reflexivity. reflexivity. }
    assert (HW1 : Wf w1).
    { eapply Wf_weaken; [| | | |exact HW]; rewrite ?Hf1; cbn -[add_listener].
      - intros c b [_ H]%lookup_delete_Some. exact H.
      - lia.
      - intros c b ev [Hne _]%lookup_delete_Some _.
        rewrite !add_listener_ne by auto. reflexivity.
      - intros o ev [-> | [-> | [-> | H]%add_listener_is_Some]%add_listener_is_Some
                    ]%add_listener_is_Some; auto. }
    destruct (client_throws _ _) as [e|].
    + intros E. eapply Wf_addDevice_rest; [| | | |exact E]; [exact HW1| | |eauto].
      * change (flight w1 !! next w = None). rewrite Hf1. apply lookup_delete_eq.
      * cbn. lia.
    + intros [= <- <-].
      assert (Hf2 : ∀ c b,
                 flight (set_attempts (alter (with_awaiting true) (next w)) w1) !! c = Some b →
                 c = next w ∨ (c ≠ next w ∧ flight w !! c = Some b)).
      { intros c b. unfold flight. cbn. rewrite alter_insert_eq.
        rewrite omap_insert_Some with (y := bdAddr) by reflexivity.
        rewrite lookup_insert. case_decide; auto. }
      destruct HW as [H1 H2]. split.
      * intros c b [-> | [Hne Hb]]%Hf2; cbn -[add_listener]; unfold wired;
          cbn -[add_listener].
        -- split; [lia|]. repeat split.
           ++ rewrite !add_listener_other by discriminate. apply add_listener_fresh, Hfresh.
           ++ rewrite add_listener_other by discriminate.
              apply add_listener_fresh. rewrite add_listener_other by discriminate.
              apply Hfresh.
           ++ apply add_listener_fresh. rewrite !add_listener_other by discriminate.
              apply Hfresh.
        -- destruct (H1 _ _ Hb) as [Hlt Hw]. split; [lia|].
           rewrite !add_listener_ne by auto. exact Hw.
      * cbn -[add_listener].
        intros o ev [-> | [-> | [-> | H]%add_listener_is_Some]%add_listener_is_Some
                    ]%add_listener_is_Some; auto. specialize (H2 _ _ H). lia.
  - unfold bind at 1, alloc. unfold bind at 1, modify. unfold bind at 1, client_call.
    cbn [effects set_channels set_next].
    assert (Wf (log (Client (AddConnectionChannel (next w)))
                  (set_channels <[next w := bdAddr]> (set_next (S (next w)) w)))).
    { eapply Wf_weaken; [| | | |exact HW]; cbn; auto. }
    destruct (client_throws _ _); [intros [= <- <-]; assumption|].
    unfold bind. destruct (FlicButton_new _ _ _ _ _) as [[] w2] eqn:E2; intros [= <- <-];
      (eapply Wf_FlicButton_new; [| |exact E2]; [assumption|cbn; lia]).
Qed.

Lemma Wf_addDevice_resume cc : Pres Wf (addDevice_resume cc).
Proof.
  intros w r w' HW. unfold addDevice_resume, bind at 1, get.
  destruct (attempts w !! cc) as [a|] eqn:Ha; [|intros [= <- <-]; exact HW].
  destruct (a_awaiting a) eqn:Haw; [|intros [= <- <-]; exact HW].
  destruct (settled (a_p a)) eqn:Hs; [|intros [= <- <-]; exact HW].
  cbn [andb]. unfold bind at 1, modify. intros E.
  assert (Hcc : flight w !! cc = Some (a_bdAddr a)).
  { unfold flight. rewrite lookup_omap, Ha. cbn. unfold flying. rewrite Haw. reflexivity. }
  eapply Wf_addDevice_rest; [| | | |exact E].
  - eapply Wf_weaken; [| | | |exact HW]; cbn; auto.
    intros c b [_ H]%flight_landed. exact H.
  - unfold flight. cbn. rewrite lookup_omap, lookup_alter_eq, Ha. reflexivity.
  - destruct HW as [H1 _]. destruct (H1 _ _ Hcc) as [Hlt _]. exact Hlt.
  - destruct (a_p a); eauto.
Qed.

Lemma Wf_run_listener l s : Pres Wf (run_listener l s).
Proof.
  destruct l, s; cbn; try apply Pres_ret.
  - unfold onCreateResponse. case_bool_decide;
      [apply Wf_alter_attempt; intros; apply flying_settle|].
    destruct (negb _); [apply Wf_alter_attempt; intros; apply flying_settle|].
    apply Pres_bind; [apply Wf_setTimeout|]. intros t.
    apply Wf_alter_attempt. reflexivity.
  - unfold onConnectionStatusChanged. case_bool_decide; [|apply Pres_ret].
    apply Wf_alter_attempt; intros; apply flying_settle.
  - unfold onRemoved. case_bool_decide; apply Wf_alter_attempt; intros; apply flying_settle.
  - unfold onButtonUpOrDown. apply Pres_bind; [|intros; apply (Pres_log Wf)].
    apply Pres_modify. exact (fun _ H => H).
  - unfold onButtonSingleOrDoubleClickOrHold.
    repeat case_bool_decide; try apply (Pres_log Wf). apply Pres_ret.
  - unfold onBatteryStatus. apply Pres_bind; [|intros; apply (Pres_log Wf)].
    apply Pres_modify. exact (fun _ H => H).
  - unfold onAdvertisementPacket. destruct isPrivate; [apply (Pres_log Wf)|].
    apply (Pres_call_async Wf), Wf_addDevice.
Qed.

Lemma Wf_removeAllListeners obj ev :
  ¬ attempt_event ev → Pres Wf (removeAllListeners obj ev).
Proof.
  intros Hev. apply Pres_modify. intros w HW.
  eapply Wf_weaken; [| | | |exact HW]; cbn; auto.
  - intros c b ev' _ Hev'. apply lookup_delete_ne. intros [= _ ->]. auto.
  - intros o ev' H%delete_is_Some. auto.
Qed.

Lemma Wf_cancelPairing : Pres Wf cancelPairing.
Proof.
  unfold cancelPairing. apply Pres_get_bind. intros w.
  apply Pres_bind; [apply (Pres_client_call Wf)|]. intros _.
  apply Pres_bind.
  { destruct (timeout w); cbn; [|apply Pres_ret]. apply Pres_modify. exact (fun _ H => H). }
  intros _. apply Pres_bind; intros; apply Pres_modify; exact (fun _ H => H).
Qed.

Lemma Wf_startPairing timeoutSeconds : Pres Wf (startPairing timeoutSeconds).
Proof.
  intros w r w' HW. unfold startPairing, bind at 1, get.
  destruct (timeout w); [intros [= <- <-]; exact HW|].
  unfold bind, alloc, modify, setTimeout, on, client_call, bind, alloc, modify, ret.
  cbn -[add_listener].
  match goal with
  | |- context [log ?e ?w0] => assert (Wf (log e w0))
  end.
  { eapply Wf_weaken; [| | | |exact HW]; cbn -[add_listener]; auto.
    - intros c b ev _ (_ & _ & _ & H)%attempt_event_button.
      apply add_listener_other. auto.
    - intros o ev [-> | H]%add_listener_is_Some; auto. }
  destruct (client_throws _ _); intros [= <- <-]; assumption.
Qed.

Lemma Wf_removeThing thing : Pres Wf (removeThing thing).
Proof.
  unfold removeThing. apply Pres_bind.
  { unfold unload. apply Pres_get_bind. intros w.
    destruct (buttons w !! thing); [|apply Pres_throw].
    apply Pres_bind.
    - apply Wf_removeAllListeners. intros [H | [H | H]]; discriminate.
    - intros _. apply Pres_bind; intros; apply (Pres_client_call Wf). }
  intros _. apply Pres_get_bind. intros w. apply Pres_bind.
  - destruct (buttons w !! thing); [apply (Pres_client_call Wf)|apply Pres_throw].
  - intros _. unfold super_removeThing. apply Pres_get_bind. intros w1.
    destruct (buttons w1 !! thing) as [b|]; [|apply Pres_throw].
    apply Pres_bind; [|intros; apply (Pres_log Wf)].
    apply Pres_modify. exact (fun _ H => H).
Qed.

Lemma Wf_step w ev : Wf w → Wf (step w ev).
Proof.
  intros HW. unfold step. destruct (handle ev w) as [r w'] eqn:E.
  assert (Wf w'); [|destruct r; assumption].
  revert E. generalize w r w' HW. change (Pres Wf (handle ev)).
  destruct ev; cbn [handle].
  - unfold onReady. apply Pres_for_each. intros x.
    apply (Pres_call_async Wf), Wf_addDevice.
  - apply Wf_startPairing.
  - apply Wf_cancelPairing.
  - apply Wf_removeThing.
  - unfold emit. apply Pres_get_bind. intros w0. apply Pres_for_each.
    intros l. apply Wf_run_listener.
  - unfold fire. apply Pres_get_bind. intros w0.
    destruct (timers w0 !! t) as [[[cc|] ms]|]; [| |apply Pres_ret].
    + apply Pres_bind; [apply Pres_modify; exact (fun _ H => H)|].
      intros _. apply Pres_throw.
    + apply Pres_bind; [apply Pres_modify; exact (fun _ H => H)|].
      intros _. apply Wf_cancelPairing.
  - apply (Pres_call_async Wf), Wf_addDevice_resume.
Qed.

Lemma Wf_run evs : ∀ w, Wf w → Wf (run w evs).
Proof.
  induction evs as [|ev evs IH]; intros w HW; [exact HW|].
  cbn. apply IH, Wf_step, HW.
Qed.

(** In every world the adapter can reach, an attempt in flight has exactly
    its own three listeners on its channel. *)
Lemma in_flight_wired evs cc a :
  attempts (run initial evs) !! cc = Some a → a_awaiting a = true →
  listeners_of (run initial evs) cc "createResponse" = [OnCreateResponse cc] ∧
  listeners_of (run initial evs) cc "connectionStatusChanged"
  = [OnConnectionStatusChanged cc] ∧
  listeners_of (run initial evs) cc "removed" = [OnRemoved cc].
Proof.
  intros Ha Haw. destruct (Wf_run evs initial Wf_initial) as [H1 _].
  destruct (H1 cc (a_bdAddr a)) as [_ (Hc & Hs & Hr)].
  { unfold flight. rewrite lookup_omap, Ha. cbn. unfold flying. rewrite Haw. reflexivity. }
  unfold listeners_of. rewrite Hc, Hs, Hr. auto.
Qed.

(** ** The scanner keeps its listener *)

#[local] Instance Scanned_unobserved : Unobserved Scanned.
Proof. intros e w H. exact H. Qed.

Lemma Scanned_on obj ev l : ev ≠ "advertisementPacket" → Pres Scanned (on obj ev l).
Proof.
  intros Hev. apply Pres_modify. intros w H s Hs. cbn.
  rewrite add_listener_other by exact Hev. auto.
Qed.

Lemma Scanned_removeAllListeners obj ev :
  ev ≠ "advertisementPacket" → Pres Scanned (removeAllListeners obj ev).
Proof.
  intros Hev. apply Pres_modify. intros w H s Hs. cbn.
  rewrite lookup_delete_ne by congruence. auto.
Qed.

Lemma Scanned_alloc : Pres Scanned alloc.
Proof. intros w r w' H [= <- <-]. exact H. Qed.

Ltac scanned_leaf :=
  first [ apply Scanned_on; discriminate
        | apply Scanned_removeAllListeners; discriminate
        | apply Scanned_alloc ].

Lemma Scanned_FlicButton_new bdAddr cc client name :
  Pres Scanned (FlicButton_new bdAddr cc client name).
Proof.
  unfold FlicButton_new, handleDeviceAdded. repeat pres_step Scanned scanned_leaf.
Qed.

Lemma Scanned_addDevice_rest bdAddr name cc body :
  Pres Scanned body → Pres Scanned (addDevice_rest bdAddr name cc body).
Proof.
  intros Hb. unfold addDevice_rest, addDevice_finally, console_error, clearTimeout.
  repeat pres_step Scanned ltac:(first [exact Hb | apply Scanned_FlicButton_new | scanned_leaf]).
Qed.

Lemma Scanned_addDevice bdAddr name tryToConnect :
  Pres Scanned (addDevice bdAddr name tryToConnect).
Proof.
  unfold addDevice.
  repeat pres_step Scanned
    ltac:(first [ apply Scanned_addDevice_rest; apply Pres_throw
                | apply Scanned_FlicButton_new | scanned_leaf ]).
Qed.

Lemma Scanned_run_listener l s : Pres Scanned (run_listener l s).
Proof.
  destruct l, s; cbn [run_listener]; try apply Pres_ret;
    unfold onCreateResponse, onConnectionStatusChanged, onRemoved, onButtonUpOrDown,
      onButtonSingleOrDoubleClickOrHold, onBatteryStatus, onAdvertisementPacket,
      console_warn, resolve, reject, setTimeout, alloc;
    repeat pres_step Scanned ltac:(first [apply Scanned_addDevice | scanned_leaf]).
Qed.

Lemma Scanned_cancelPairing : Pres Scanned cancelPairing.
Proof. unfold cancelPairing, clearTimeout. repeat pres_step Scanned fail. Qed.

Lemma Scanned_startPairing timeoutSeconds w r w' :
  Wf w → Scanned w → startPairing timeoutSeconds w = (r, w') → Scanned w'.
Proof.
  intros [_ H2] HS. unfold startPairing, bind at 1, get.
  destruct (timeout w); [intros [= <- <-]; exact HS|].
  unfold bind, alloc, modify, setTimeout, on, client_call, bind, alloc, modify, ret.
  cbn -[add_listener].
  assert (listeners w !! (next w, "advertisementPacket") = None).
  { apply eq_None_not_Some. intros H. specialize (H2 _ _ H). lia. }
  destruct (client_throws _ _) as [e|]; intros [= <- <-]; intros s' [= <-];
    cbn -[add_listener]; apply add_listener_fresh; assumption.
Qed.

Lemma Scanned_step w ev : Wf w → Scanned w → Scanned (step w ev).
Proof.
  intros HW HS. unfold step. destruct (handle ev w) as [r w'] eqn:E.
  assert (Scanned w'); [|destruct r; assumption].
  destruct ev; cbn [handle] in E;
    [| eapply Scanned_startPairing; eauto | | | | |];
    revert E; generalize w r w' HS; clear; intros w r w' HS;
    generalize w r w' HS;
    match goal with
    | |- ∀ w r w', Scanned w → ?m w = (r, w') → Scanned w' => change (Pres Scanned m)
    end.
  - unfold onReady. repeat pres_step Scanned ltac:(apply Scanned_addDevice).
  - apply Scanned_cancelPairing.
  - unfold removeThing, unload, super_removeThing.
    repeat pres_step Scanned scanned_leaf.
  - unfold emit. repeat pres_step Scanned ltac:(apply Scanned_run_listener).
  - unfold fire, this_client_call.
    repeat pres_step Scanned ltac:(apply Scanned_cancelPairing).
  - unfold addDevice_resume.
    repeat pres_step Scanned
      ltac:(first [apply Scanned_addDevice_rest; repeat pres_step Scanned fail]).
Qed.

Lemma Scanned_run evs : ∀ w, Wf w → Scanned w → Scanned (run w evs).
Proof.
  induction evs as [|ev evs IH]; intros w HW HS; [exact HS|].
  cbn. apply IH; [apply Wf_step, HW|apply Scanned_step; assumption].
Qed.

(** In every world the adapter can reach, the scanner of the pairing
    session has exactly the listener [startPairing] gave it. *)
Lemma scanner_listens evs s :
  scanner (run initial evs) = Some s →
  listeners_of (run initial evs) s "advertisementPacket" = [OnAdvertisementPacket].
Proof.
  intros Hs. unfold listeners_of.
  assert (H0 : Scanned initial) by (intros s0 [=]).
  rewrite (Scanned_run evs initial Wf_initial H0 s Hs). reflexivity.
Qed.

(** ** The deadline timer *)

(** The callback of the deadline timer is a [function], so when the timer
    fires [this] is the [Timeout] object and [this.client] is [undefined]:
    the callback throws before it reaches the client. *)
Lemma step_fire_deadline t cc ms w :
  timers w !! t = Some (RemoveChannelAfterDeadline cc, ms) →
  step w (Fire t) = log (Uncaught TypeError) (set_timers (delete t) w).
Proof.
  intros H. unfold step, handle, fire, bind, get. rewrite H. reflexivity.
Qed.

(** ** Where the code parts from its specification *)

(** A rejected attempt, whatever the reason, ends with a device: once the
    [catch] block has logged the reason and released the channel, the
    resumed [addDevice] constructs and registers a [FlicButton]. *)
Lemma resume_rejected_registers w cc a reason :
  attempts w !! cc = Some a → a_awaiting a = true → a_p a = Rejected reason →
  client_throws (effects w ++ [ConsoleError reason]) (RemoveConnectionChannel cc) = None →
  client_throws (effects w ++ [ConsoleError reason; Client (RemoveConnectionChannel cc)])
                (AddBatteryStatusListener (S (next w))) = None →
  let w' := step w (Resume cc) in
  effects w' = effects w ++ [ConsoleError reason; Client (RemoveConnectionChannel cc);
                             Client (AddBatteryStatusListener (S (next w)));
                             HostDeviceAdded (next w)] ∧
  devices w' !! device_id (a_bdAddr a) = Some (next w).
Proof.
  intros Ha Haw Hp Hr Hb w'. subst w'.
  rewrite (step_resume _ _ _ Ha Haw) by (rewrite Hp; reflexivity).
  rewrite Hp, addDevice_rest_throw. cbn [effects set_attempts]. rewrite Hr.
  unfold bind. rewrite FlicButton_new_eq.
  cbn [effects torn_down caught set_connecting set_listeners set_timers set_attempts
       next log].
  rewrite <- !app_assoc. cbn [app]. rewrite Hb. cbn. rewrite <- !app_assoc.
  split; [reflexivity|apply lookup_insert_eq].
Qed.

(** The device of an attempt that resolved Ready is named after its
    address, whatever name the attempt was started with. *)
Lemma resume_ready_names_after_address w cc a :
  attempts w !! cc = Some a → a_awaiting a = true → a_p a = Fulfilled cc →
  buttons (step w (Resume cc)) !! next w
  = Some (mkFlicButton (device_id (a_bdAddr a)) ("Flic button " +:+ a_bdAddr a)
                       (a_bdAddr a) cc 100 false (S (next w))).
Proof.
  intros Ha Haw Hp.
  rewrite (step_resume _ _ _ Ha Haw) by (rewrite Hp; reflexivity).
  rewrite Hp, addDevice_rest_ret. unfold bind. rewrite FlicButton_new_eq.
  destruct (client_throws _ _); cbn; apply lookup_insert_eq.
Qed.

(** Removing a device never touches the listeners for
    [buttonSingleOrDoubleClickOrHold], on any channel. *)
Lemma removeThing_keeps_click_listeners w thing cc :
  listeners_of (step w (RemoveThing thing)) cc "buttonSingleOrDoubleClickOrHold"
  = listeners_of w cc "buttonSingleOrDoubleClickOrHold".
Proof.
  unfold step, handle, removeThing, unload, super_removeThing, bind, get,
    removeAllListeners, modify, client_call, throw, listeners_of.
  destruct (buttons w !! thing) as [b|] eqn:Eb; [|reflexivity].
  cbn. destruct (client_throws _ _);
    [cbn; rewrite lookup_delete_ne by (intros [=]); reflexivity|].
  destruct (client_throws _ _);
    [cbn; rewrite lookup_delete_ne by (intros [=]); reflexivity|].
  cbn. rewrite Eb. destruct (client_throws _ _);
    [cbn; rewrite lookup_delete_ne by (intros [=]); reflexivity|].
  cbn. rewrite Eb. cbn. rewrite lookup_delete_ne by (intros [=]). reflexivity.
Qed.

(** ** Preservation, method by method *)

(** Unfolding the methods down to the primitives of the world. *)
Ltac open_methods :=
  progress unfold handle, onReady, emit, fire, this_client_call, removeThing, unload,
    super_removeThing, addDevice_resume, addDevice, addDevice_rest, addDevice_finally,
    FlicButton_new, handleDeviceAdded, console_error, console_warn, resolve, reject,
    run_listener, onCreateResponse, onConnectionStatusChanged, onRemoved,
    onButtonUpOrDown, onButtonSingleOrDoubleClickOrHold, onBatteryStatus,
    onAdvertisementPacket.

Ltac open_pairing := progress unfold startPairing, cancelPairing.

Ltac pres_all I leaf := repeat pres_step I ltac:(first [leaf | open_methods]).

(** ** The deadline of an attempt *)

#[local] Instance Deadlines_unobserved cc answered : Unobserved (Deadlines cc answered).
Proof. intros e w H. exact H. Qed.

Lemma Deadlines_initial cc answered : Deadlines cc answered initial.
Proof.
  split; [|split; [|split]]; cbn.
  - intros o ls. rewrite lookup_empty. discriminate.
  - intros c. rewrite lookup_empty. intros []. discriminate.
  - intros _ a. rewrite lookup_empty. discriminate.
  - intros t ms. rewrite lookup_empty. discriminate.
Qed.

Lemma Deadlines_weaken cc answered w w' :
  (∀ o ls, listeners w' !! (o, "createResponse") = Some ls →
           listeners w !! (o, "createResponse") = Some ls) →
  (next w ≤ next w')%nat →
  (∀ c, is_Some (attempts w' !! c) ↔ is_Some (attempts w !! c)) →
  (∀ a', attempts w' !! cc = Some a' →
         ∃ a, attempts w !! cc = Some a ∧ a_timeout a' = a_timeout a) →
  (∀ t ms, timers w' !! t = Some (RemoveChannelAfterDeadline cc, ms) →
           timers w !! t = Some (RemoveChannelAfterDeadline cc, ms)) →
  Deadlines cc answered w → Deadlines cc answered w'.
Proof.
  intros Hl Hn Hs Ha Ht (H1 & H2 & H3 & H4). split; [|split; [|split]].
  - intros o ls Ho. destruct (H1 o ls (Hl _ _ Ho)) as [-> Hsome].
    split; [reflexivity|]. apply Hs, Hsome.
  - intros c Hc. apply Hs in Hc. specialize (H2 c Hc). lia.
  - intros Hb a' Ha'. destruct (Ha a' Ha') as (a & Hw & ->). eapply H3; eauto.
  - intros t ms Htm. destruct (H4 t ms (Ht _ _ Htm)) as (a & Hw & Hto).
    destruct (proj2 (Hs cc)) as [a' Ha']; [eauto|]. exists a'. split; [exact Ha'|].
    destruct (Ha a' Ha') as (a0 & Hw0 & ->). congruence.
Qed.

Ltac deadlines_same :=
  first [ lia | exact (fun _ _ H => H) | exact (fun _ => reflexivity _) | solve [eauto] ].

Lemma Deadlines_alloc cc b : Pres (Deadlines cc b) alloc.
Proof.
  intros w r w' H [= <- <-].
  eapply Deadlines_weaken; [| | | | |exact H]; cbn; deadlines_same.
Qed.

Lemma Deadlines_on cc b obj ev l :
  ev ≠ "createResponse" → Pres (Deadlines cc b) (on obj ev l).
Proof.
  intros Hev. apply Pres_modify. intros w H.
  eapply Deadlines_weaken; [| | | | |exact H]; cbn -[add_listener]; try deadlines_same.
  intros o ls. rewrite add_listener_other by exact Hev. auto.
Qed.

Lemma Deadlines_removeAllListeners cc b obj ev :
  Pres (Deadlines cc b) (removeAllListeners obj ev).
Proof.
  apply Pres_modify. intros w H.
  eapply Deadlines_weaken; [| | | | |exact H]; cbn; try deadlines_same.
  intros o ls [_ Hls]%lookup_delete_Some. exact Hls.
Qed.

Lemma Deadlines_alter_attempt cc b f c :
  (∀ a, a_timeout (f a) = a_timeout a) →
  Pres (Deadlines cc b) (modify (set_attempts (alter f c))).
Proof.
  intros Hf. apply Pres_modify. intros w H.
  eapply Deadlines_weaken; [| | | | |exact H]; cbn; try deadlines_same.
  - intros c'. apply lookup_alter_is_Some.
  - intros a'. rewrite lookup_alter. case_decide as Ec; [subst c|eauto].
    destruct (attempts w !! cc) as [a|]; cbn; [|discriminate]. intros [= <-]. eauto.
Qed.

Lemma timeout_settle p a : a_timeout (settle p a) = a_timeout a.
Proof. unfold settle. destruct (a_p a); reflexivity. Qed.

Lemma Deadlines_arm_pairing cc b ms :
  Pres (Deadlines cc b) (setTimeout CancelPairingAfterDeadline ms).
Proof.
  intros w r w' H [= <- <-].
  eapply Deadlines_weaken; [| | | | |exact H]; cbn; try deadlines_same.
  intros t ms'. rewrite lookup_insert. case_decide; [discriminate|auto].
Qed.

Lemma Deadlines_delete cc b t : Pres (Deadlines cc b) (modify (set_timers (delete t))).
Proof.
  apply Pres_modify. intros w H.
  eapply Deadlines_weaken; [| | | | |exact H]; cbn; try deadlines_same.
  intros t' ms [_ Ht]%lookup_delete_Some. exact Ht.
Qed.

Lemma Deadlines_clearTimeout cc b t : Pres (Deadlines cc b) (clearTimeout t).
Proof. destruct t; [apply Deadlines_delete|apply Pres_ret]. Qed.

(** The response to the creation of another channel. *)
Lemma Deadlines_onCreateResponse cc b c error connectionStatus :
  c ≠ cc → Pres (Deadlines cc b) (onCreateResponse c error connectionStatus).
Proof.
  intros Hne. unfold onCreateResponse, resolve, reject.
  case_bool_decide; [apply Deadlines_alter_attempt, timeout_settle|].
  destruct (negb _); [apply Deadlines_alter_attempt, timeout_settle|].
  intros w r w' HD [= <- <-].
  eapply Deadlines_weaken; [| | | | |exact HD]; cbn; try deadlines_same.
  - intros c'. apply lookup_alter_is_Some.
  - intros a'. rewrite lookup_alter_ne by exact Hne. eauto.
  - intros t ms. rewrite lookup_insert. case_decide; [intros [= E]; congruence|auto].
Qed.

Ltac deadlines_prim :=
  first [ apply Deadlines_alloc | apply Deadlines_on; discriminate
        | apply Deadlines_removeAllListeners
        | apply Deadlines_alter_attempt; first [intros; apply timeout_settle | reflexivity]
        | apply Deadlines_arm_pairing | apply Deadlines_delete
        | apply Deadlines_clearTimeout | open_pairing ].

Lemma Deadlines_addDevice_rest cc b bdAddr name c body :
  body = ret tt ∨ (∃ e, body = throw e) →
  Pres (Deadlines cc b) (addDevice_rest bdAddr name c body).
Proof.
  intros [-> | [e ->]]; unfold addDevice_rest;
    pres_all (Deadlines cc b) deadlines_prim.
Qed.

Lemma Deadlines_addDevice cc b bdAddr name tryToConnect :
  Pres (Deadlines cc b) (addDevice bdAddr name tryToConnect).
Proof.
  destruct tryToConnect;
    [|unfold addDevice; pres_all (Deadlines cc b) deadlines_prim].
  intros w r w' HD. unfold addDevice, bind at 1, get.
  destruct (_ || _); [intros [= <- <-]; exact HD|].
  pose proof HD as (H1 & H2 & H3 & H4).
  assert (Hna : attempts w !! next w = None).
  { apply eq_None_not_Some. intros H. specialize (H2 _ H). lia. }
  assert (Hnl : listeners w !! (next w, "createResponse") = None).
  { destruct (listeners w !! (next w, "createResponse")) as [ls|] eqn:E; [|reflexivity].
    destruct (H1 _ _ E) as [_ H]. rewrite Hna in H. destruct H; discriminate. }
  unfold bind, alloc, modify, on, outcome, client_call.
  cbn -[addDevice_rest add_listener].
  set (w1 := set_listeners _ _).
  assert (HD1 : Deadlines cc b w1).
  { subst w1. split; [|split; [|split]]; cbn -[add_listener].
    - intros o ls. rewrite !add_listener_other by discriminate.
      destruct (decide (o = next w)) as [-> | Hne].
      + rewrite add_listener_fresh by exact Hnl. intros [= <-].
        split; [reflexivity|]. rewrite lookup_insert_eq. eauto.
      + rewrite add_listener_ne by auto. intros Ho. destruct (H1 _ _ Ho) as [-> Hs].
        split; [reflexivity|]. rewrite lookup_insert_ne by auto. exact Hs.
    - intros c. rewrite lookup_insert. case_decide; [subst; intros _; lia|].
      intros Hc. specialize (H2 _ Hc). lia.
    - intros Hb a. rewrite lookup_insert. case_decide; [intros [= <-]; reflexivity|].
      apply H3, Hb.
    - intros t ms Ht. destruct (H4 _ _ Ht) as (a & Ha & Hto). exists a.
      split; [|exact Hto]. rewrite lookup_insert_ne; [exact Ha|]. intros <-. congruence. }
  destruct (client_throws _ _) as [e|].
  - intros E.
    exact (Deadlines_addDevice_rest cc b _ _ _ _ (or_intror (ex_intro _ e eq_refl))
             (log _ w1) _ _ HD1 E).
  - intros [= <- <-].
    exact (Deadlines_alter_attempt cc b (with_awaiting true) (next w) (fun _ => eq_refl)
             (log _ w1) _ _ HD1 eq_refl).
Qed.

Ltac deadlines_leaf := first [ apply Deadlines_addDevice | deadlines_prim ].

Lemma Deadlines_run_listener cc b l s :
  event_name s ≠ "createResponse" → Pres (Deadlines cc b) (run_listener l s).
Proof.
  intros Hs. destruct s; [exfalso; apply Hs; reflexivity|..];
    destruct l; cbn [run_listener]; pres_all (Deadlines cc b) deadlines_leaf.
Qed.

Lemma Deadlines_emit cc b obj s :
  answer cc (Emit obj s) = false → Pres (Deadlines cc b) (emit obj s).
Proof.
  intros Hans.
  destruct (decide (event_name s = "createResponse")) as [Hs | Hs].
  - destruct s; try discriminate. cbn in Hans. apply bool_decide_eq_false in Hans.
    intros w r w' HD. pose proof HD as (H1 & _).
    destruct (listeners w !! (obj, "createResponse")) as [ls|] eqn:E.
    + destruct (H1 _ _ E) as [-> _].
      rewrite (emit_one obj _ (OnCreateResponse obj) w)
        by (unfold listeners_of; cbn; rewrite E; reflexivity).
      cbn [run_listener]. intros Heq.
      refine (Pres_bind (Deadlines cc b) _ _ _ _ w r w' HD Heq).
      * apply Deadlines_onCreateResponse, Hans.
      * intros _. apply Pres_ret.
    + rewrite emit_nil by (unfold listeners_of; cbn; rewrite E; reflexivity).
      intros [= <- <-]. exact HD.
  - unfold emit. apply Pres_get_bind. intros w. apply Pres_for_each. intros l.
    apply Deadlines_run_listener, Hs.
Qed.

Lemma Deadlines_handle cc b ev :
  answer cc ev = false → Pres (Deadlines cc b) (handle ev).
Proof.
  intros Hans. destruct ev; cbn [handle]; try apply (Deadlines_emit _ _ _ _ Hans);
    pres_all (Deadlines cc b) deadlines_leaf.
Qed.

(** The response to the creation of the channel itself, the first time. *)
Lemma Deadlines_answer cc w error connectionStatus :
  Deadlines cc false w →
  Deadlines cc true (step w (Emit cc (createResponse error connectionStatus))).
Proof.
  intros HD. pose proof HD as (H1 & H2 & H3 & H4).
  assert (HT : Deadlines cc true w).
  { split; [exact H1|]. split; [exact H2|]. split; [discriminate|exact H4]. }
  destruct (listeners w !! (cc, "createResponse")) as [ls|] eqn:E.
  - destruct (H1 _ _ E) as [-> [a Ha]].
    rewrite step_createResponse by (unfold listeners_of; rewrite E; reflexivity).
    case_bool_decide;
      [exact (Deadlines_alter_attempt cc true _ _ (timeout_settle _) _ _ _ HT eq_refl)|].
    destruct (negb _);
      [exact (Deadlines_alter_attempt cc true _ _ (timeout_settle _) _ _ _ HT eq_refl)|].
    split; [|split; [|split]]; cbn.
    + intros o ls Ho. destruct (H1 _ _ Ho) as [-> Hs]. split; [reflexivity|].
      apply lookup_alter_is_Some, Hs.
    + intros c Hc%lookup_alter_is_Some. specialize (H2 _ Hc). lia.
    + discriminate.
    + intros t ms. rewrite lookup_insert. case_decide as Et.
      * subst t. intros _. exists (with_timeout (Some (next w)) a).
        rewrite lookup_alter_eq, Ha. split; reflexivity.
      * intros Ht. destruct (H4 _ _ Ht) as (a0 & Ha0 & Hto).
        rewrite (H3 eq_refl _ Ha0) in Hto. discriminate.
  - unfold step, handle.
    rewrite emit_nil by (unfold listeners_of; cbn; rewrite E; reflexivity). exact HT.
Qed.

Lemma Deadlines_run cc evs : ∀ w answered,
  Deadlines cc answered w → (answers cc evs ≤ if answered then 0 else 1)%nat →
  ∃ answered', Deadlines cc answered' (run w evs).
Proof.
  induction evs as [|ev evs IH]; intros w b HD Hn; [eauto|].
  change (run w (ev :: evs)) with (run (step w ev) evs). cbn [answers] in Hn.
  destruct (answer cc ev) eqn:Ea.
  - destruct b; [lia|]. destruct ev as [| | | |obj s| |]; try discriminate.
    destruct s; try discriminate. cbn in Ea. apply bool_decide_eq_true in Ea as ->.
    apply (IH _ true); [apply Deadlines_answer, HD|lia].
  - apply (IH _ b); [|exact Hn].
    unfold step. destruct (handle ev w) as [r w'] eqn:E.
    pose proof (Deadlines_handle cc b ev Ea _ _ _ HD E). destruct r; assumption.
Qed.

(** In a run in which the daemon answers the creation of a channel at most
    once, every armed deadline timer of the channel is the one its attempt
    holds in [timeout]. *)
Lemma deadline_is_held evs cc t ms :
  (answers cc evs ≤ 1)%nat →
  timers (run initial evs) !! t = Some (RemoveChannelAfterDeadline cc, ms) →
  ∃ a, attempts (run initial evs) !! cc = Some a ∧ a_timeout a = Some t.
Proof.
  intros Hn Ht.
  destruct (Deadlines_run cc evs initial false (Deadlines_initial cc false) Hn)
    as (b & _ & _ & _ & H4).
  exact (H4 _ _ Ht).
Qed.

Lemma timers_resume cc a w :
  attempts w !! cc = Some a → a_awaiting a = true → settled (a_p a) = true →
  timers (step w (Resume cc))
  = match a_timeout a with
    | Some t => delete t (timers w)
    | None => timers w
    end.
Proof.
  intros H1 H2 H3. rewrite (step_resume _ _ _ H1 H2 H3).
  assert (Ht : ∀ w0, attempts w0 !! cc = Some (with_awaiting false a) →
                     timers w0 = timers w →
                     timers (torn_down (a_bdAddr a) cc w0)
                     = match a_timeout a with
                       | Some t => delete t (timers w)
                       | None => timers w
                       end).
  { intros w0 Ha Et. unfold torn_down. cbn. rewrite Ha, Et. cbn.
    destruct (a_timeout a); reflexivity. }
  assert (Ha : attempts (set_attempts (alter (with_awaiting false) cc) w) !! cc
               = Some (with_awaiting false a)).
  { cbn. rewrite lookup_alter_eq, H1. reflexivity. }
  destruct (a_p a) as [|c|reason]; [discriminate| |].
  - rewrite addDevice_rest_ret. unfold bind. rewrite FlicButton_new_eq.
    destruct (client_throws _ _); cbn [timers log set_devices constructing set_listeners
                                        set_buttons set_next];
      apply Ht; [exact Ha|reflexivity|exact Ha|reflexivity].
  - rewrite addDevice_rest_throw.
    destruct (client_throws _ _); [apply Ht; [exact Ha|reflexivity]|].
    unfold bind. rewrite FlicButton_new_eq.
    destruct (client_throws _ _); cbn [timers log set_devices constructing set_listeners
                                        set_buttons set_next];
      apply Ht; [exact Ha|reflexivity|exact Ha|reflexivity].
Qed.

Lemma timers_torn_down_none bdAddr cc a w :
  attempts w !! cc = Some a → a_timeout a = None →
  timers (torn_down bdAddr cc w) = timers w.
Proof. intros Ha Hn. unfold torn_down. cbn. rewrite Ha, Hn. reflexivity. Qed.

(** An attempt that ends in [addConnectionChannel] throwing has armed no
    timer. *)
Lemma addDevice_throws_timers w bdAddr name e r w' :
  device_id bdAddr ∉ dom (devices w) → bdAddr ∉ connecting w →
  client_throws (effects w) (AddConnectionChannel (next w)) = Some e →
  addDevice bdAddr name true w = (r, w') → timers w' = timers w.
Proof.
  intros Hd Hc Hthrow. unfold addDevice, bind at 1, get.
  rewrite (bool_decide_eq_false_2 _ Hd), (bool_decide_eq_false_2 _ Hc).
  unfold bind, alloc, modify, on, outcome, client_call.
  cbn -[addDevice_rest add_listener]. rewrite Hthrow.
  set (w1 := set_listeners _ _).
  assert (Ha : attempts (caught (next w) e
                           (log (Client (AddConnectionChannel (next w))) w1)) !! next w
               = Some (mkAttempt bdAddr name None Pending false))
    by apply lookup_insert_eq.
  assert (Et : timers w1 = timers w) by reflexivity.
  clearbody w1. rewrite addDevice_rest_throw.
  destruct (client_throws (_ ++ [ConsoleError e]) _).
  - intros [= <- <-]. rewrite (timers_torn_down_none _ _ _ _ Ha eq_refl). exact Et.
  - unfold bind. rewrite FlicButton_new_eq.
    destruct (client_throws _ (AddBatteryStatusListener _)); intros [= <- <-];
      change (timers (torn_down bdAddr (next w)
                        (caught (next w) e
                           (log (Client (AddConnectionChannel (next w))) w1)))
              = timers w);
      rewrite (timers_torn_down_none _ _ _ _ Ha eq_refl); exact Et.
Qed.

(** C3. On every terminal resolution of a connection attempt, whatever the
    outcome, the deadline timer is cancelled, the listeners for
    [createResponse], [connectionStatusChanged] and [removed] are removed
    from the channel and the address leaves the [connecting] set, so that a
    later signal of the attempt runs no handler.  The resolution is either
    the turn that resumes [addDevice] after [await p] (promise fulfilled, or
    rejected for any reason), or, when [addConnectionChannel] itself throws,
    the very call of [addDevice]; in the latter case the attempt has armed
    no timer, and the armed timers are those armed before.  The timer
    cancelled is the one held in the variable [timeout]; in every run from
    the initial world in which the daemon answers the creation of the
    channel at most once, that is the deadline timer the attempt armed:
    every armed deadline timer of the channel is held in [timeout], and
    after the resolution no deadline timer of the channel is armed. *)
Theorem teardown_on_every_resolution :
  (∀ w cc a,
     attempts w !! cc = Some a → a_awaiting a = true → settled (a_p a) = true →
     let w' := step w (Resume cc) in
     torn (a_bdAddr a) cc (a_timeout a) w' ∧
     ∀ s, attempt_event (event_name s) → step w' (Emit cc s) = w')
  ∧
  (∀ w bdAddr name e r w',
     device_id bdAddr ∉ dom (devices w) → bdAddr ∉ connecting w →
     client_throws (effects w) (AddConnectionChannel (next w)) = Some e →
     addDevice bdAddr name true w = (r, w') →
     torn bdAddr (next w) None w' ∧ timers w' = timers w ∧
     ∀ s, attempt_event (event_name s) → step w' (Emit (next w) s) = w')
  ∧
  (∀ evs cc a,
     (answers cc evs ≤ 1)%nat →
     let w := run initial evs in
     attempts w !! cc = Some a → a_awaiting a = true → settled (a_p a) = true →
     (∀ t ms, timers w !! t = Some (RemoveChannelAfterDeadline cc, ms) →
              a_timeout a = Some t) ∧
     ∀ t ms, timers (step w (Resume cc)) !! t ≠ Some (RemoveChannelAfterDeadline cc, ms)).
Proof.
  split; [|split].
  - intros w cc a H1 H2 H3 w'.
    assert (Ht : torn (a_bdAddr a) cc (a_timeout a) w').
    { subst w'. rewrite (step_resume _ _ _ H1 H2 H3).
      destruct (addDevice_rest _ _ _ _ _) as [r w1] eqn:E.
      assert (torn (a_bdAddr a) cc (a_timeout (with_awaiting false a)) w1).
      { eapply torn_addDevice_rest; [| |exact E].
        - destruct (a_p a); eauto.
        - cbn. rewrite lookup_alter_eq, H1. reflexivity. }
      destruct r; [assumption | apply torn_log; assumption]. }
    split; [exact Ht|]. intros s Hs. eapply step_emit_silent; eauto.
  - intros w bdAddr name e r w' Hd Hc Hthrow Hadd.
    pose proof (addDevice_throws_timers _ _ _ _ _ _ Hd Hc Hthrow Hadd) as Htimers.
    revert Hadd. unfold addDevice, bind at 1, get.
    rewrite (bool_decide_eq_false_2 _ Hd), (bool_decide_eq_false_2 _ Hc).
    unfold bind, alloc, modify, on, outcome, client_call.
    cbn -[addDevice_rest add_listener]. rewrite Hthrow. intros E.
    assert (Ht : torn bdAddr (next w) None w').
    { eapply (torn_addDevice_rest _ _ _ _ (mkAttempt bdAddr name None Pending false));
        [| |exact E]; [eauto|].
      cbn. apply lookup_insert_eq. }
    split; [exact Ht|]. split; [exact Htimers|].
    intros s Hs. eapply step_emit_silent; eauto.
  - intros evs cc a Hn w H1 H2 H3.
    assert (Hheld : ∀ t ms, timers w !! t = Some (RemoveChannelAfterDeadline cc, ms) →
                            a_timeout a = Some t).
    { intros t ms Ht. destruct (deadline_is_held evs cc t ms Hn Ht) as (a' & Ha' & Hto).
      fold w in Ha'. congruence. }
    split; [exact Hheld|]. intros t ms. rewrite (timers_resume _ _ _ H1 H2 H3).
    destruct (a_timeout a) as [t0|] eqn:Eto.
    + rewrite lookup_delete. case_decide; [discriminate|].
      intros Ht. specialize (Hheld _ _ Ht). congruence.
    + intros Ht. specialize (Hheld _ _ Ht). discriminate.
Qed.

(** * The claims about signals, over the worlds the adapter can reach *)

(** C10. A [createResponse] whose status is "Ready" resolves a pending
    attempt as Ready whatever its error code: the promise is fulfilled with
    the channel, nothing is logged and no timer is armed; the resumed
    [addDevice] skips the [catch] block (no error log, no
    [removeConnectionChannel]) and constructs a [FlicButton] on that very
    channel, which is registered once the client has accepted its battery
    listener. *)
Theorem createResponse_Ready_takes_precedence evs cc a error :
  let w := run initial evs in
  attempts w !! cc = Some a → a_awaiting a = true → a_p a = Pending →
  let w1 := step w (Emit cc (createResponse error "Ready")) in
  let w2 := step w1 (Resume cc) in
  attempts w1 !! cc = Some (with_p (Fulfilled cc) a) ∧
  effects w1 = effects w ∧ timers w1 = timers w ∧
  (∃ b, buttons w2 !! next w = Some b ∧ b_cc b = cc ∧ b_bdAddr b = a_bdAddr a) ∧
  match client_throws (effects w) (AddBatteryStatusListener (S (next w))) with
  | None =>
      effects w2 = effects w ++ [Client (AddBatteryStatusListener (S (next w)));
                                 HostDeviceAdded (next w)] ∧
      devices w2 !! device_id (a_bdAddr a) = Some (next w)
  | Some e =>
      effects w2 = effects w ++ [Client (AddBatteryStatusListener (S (next w)));
                                 UnhandledRejection e]
  end.
Proof.
  intros w Ha Haw Hp. destruct (in_flight_wired evs cc a Ha Haw) as (Hl & _ & _).
  exact (createResponse_Ready_at w cc a error Ha Hp Haw Hl).
Qed.

(** C6. A [createResponse] whose status is not "Ready" and whose error
    code is not "NoError" rejects a pending attempt with "Too many pending
    connections" and arms no timer; the resumed [addDevice] logs that
    reason and asks the client to remove the channel, and afterwards the
    armed timers are those armed before, less the one held in [timeout]. *)
Theorem createResponse_error_rejects evs cc a error connectionStatus :
  let w := run initial evs in
  attempts w !! cc = Some a → a_awaiting a = true → a_p a = Pending →
  connectionStatus ≠ "Ready" → error ≠ "NoError" →
  let w1 := step w (Emit cc (createResponse error connectionStatus)) in
  let w2 := step w1 (Resume cc) in
  attempts w1 !! cc = Some (with_p (Rejected "Too many pending connections") a) ∧
  timers w1 = timers w ∧ effects w1 = effects w ∧
  (∃ rest, effects w2 = effects w ++ ConsoleError "Too many pending connections"
                                  :: Client (RemoveConnectionChannel cc) :: rest) ∧
  timers w2 = match a_timeout a with
              | Some t => delete t (timers w)
              | None => timers w
              end.
Proof.
  intros w Ha Haw Hp Hs He. destruct (in_flight_wired evs cc a Ha Haw) as (Hl & _ & _).
  exact (createResponse_error_at w cc a error connectionStatus Ha Hp Haw Hl Hs He).
Qed.

(** C7. [cancelPairing] asks the client to remove the scanner, cancels the
    pairing timer, forgets [this.timeout] and empties the [connecting] set,
    and that is all: no channel is removed from the client, and the
    attempts, their listeners and their timers stay as they were.  An
    attempt that was pending therefore still resolves: when its channel
    then reports "Ready", the resumed [addDevice] registers a device. *)
Theorem cancelPairing_leaves_attempts_running evs :
  let w := run initial evs in
  client_throws (effects w) (RemoveScanner (scanner w)) = None →
  let w' := step w CancelPairing in
  effects w' = effects w ++ [Client (RemoveScanner (scanner w))] ∧
  timers w' = match timeout w with
              | Some t => delete t (timers w)
              | None => timers w
              end ∧
  timeout w' = None ∧
  connecting w' = ∅ ∧
  attempts w' = attempts w ∧ listeners w' = listeners w ∧ channels w' = channels w ∧
  devices w' = devices w ∧ buttons w' = buttons w ∧
  ∀ cc a disconnectReason,
    attempts w !! cc = Some a → a_awaiting a = true → a_p a = Pending →
    client_throws (effects w') (AddBatteryStatusListener (S (next w))) = None →
    let w2 := step (step w' (Emit cc (connectionStatusChanged "Ready" disconnectReason)))
                   (Resume cc) in
    devices w2 !! device_id (a_bdAddr a) = Some (next w) ∧
    effects w2 = effects w' ++ [Client (AddBatteryStatusListener (S (next w)));
                                HostDeviceAdded (next w)].
Proof.
  intros w Hc. destruct (cancelPairing_at w Hc) as (H1&H2&H3&H4&H5&H6&H7&H8&H9&H10).
  do 9 (split; [assumption|]).
  intros cc a r Ha Haw Hp Hb. destruct (in_flight_wired evs cc a Ha Haw) as (_ & Hl & _).
  exact (H10 cc a r Ha Hp Haw Hl Hb).
Qed.

(** C9. An advertisement of a button that reports itself private, received
    by the scanner of the pairing session, only logs the warning: the world
    is otherwise unchanged, so no channel is created, nothing is added to
    the [connecting] set and nothing is sent to the client. *)
Theorem private_advertisement_only_warns evs s bdAddr name rssi alreadyVerified :
  let w := run initial evs in
  scanner w = Some s →
  step w (Emit s (advertisementPacket bdAddr name rssi true alreadyVerified))
  = log (ConsoleWarn [Str "Your button"; Str name;
                      Str "is private. Hold down for 7 seconds to make it public."]) w.
Proof.
  intros w Hs. unfold step, handle.
  rewrite (emit_one s (advertisementPacket bdAddr name rssi true alreadyVerified) _ w
             (scanner_listens evs s Hs)).
  reflexivity.
Qed.

(** * Further properties of the adapter *)

(** ** The pairing deadline *)

#[local] Instance Paired_unobserved : Unobserved Paired.
Proof. intros e w H. exact H. Qed.

Lemma Paired_alloc : Pres Paired alloc.
Proof. intros w r w' H [= <- <-]. exact H. Qed.

Lemma Paired_arm_deadline cc ms : Pres Paired (setTimeout (RemoveChannelAfterDeadline cc) ms).
Proof.
  intros w r w' H [= <- <-] t ms'. cbn. rewrite lookup_insert.
  case_decide; [discriminate|]. apply H.
Qed.

Lemma Paired_delete t : Pres Paired (modify (set_timers (delete t))).
Proof.
  apply Pres_modify. intros w H t' ms. cbn. rewrite lookup_delete.
  case_decide; [discriminate|]. apply H.
Qed.

Lemma Paired_clearTimeout t : Pres Paired (clearTimeout t).
Proof. destruct t; [apply Paired_delete|apply Pres_ret]. Qed.

Lemma Paired_startPairing timeoutSeconds : Pres Paired (startPairing timeoutSeconds).
Proof.
  intros w r w' H. unfold startPairing, bind at 1, get.
  destruct (timeout w) eqn:Et; [intros [= <- <-]; exact H|].
  unfold bind, alloc, modify, setTimeout, on, client_call, bind, alloc, modify, ret.
  cbn -[add_listener].
  destruct (client_throws _ _); intros [= <- <-]; intros t ms; cbn;
    rewrite lookup_insert; (case_decide; [congruence|]);
    intros Ht; specialize (H _ _ Ht); congruence.
Qed.

Lemma Paired_cancelPairing : Pres Paired cancelPairing.
Proof.
  intros w r w' H. unfold cancelPairing, bind at 1, get. unfold bind at 1, client_call.
  destruct (client_throws _ _); [intros [= <- <-]; exact H|].
  unfold bind, modify. destruct (timeout w) as [t0|] eqn:Et; cbn; intros [= <- <-];
    intros t ms; cbn.
  - rewrite lookup_delete. case_decide; [discriminate|].
    intros Ht. specialize (H _ _ Ht). congruence.
  - intros Ht. specialize (H _ _ Ht). congruence.
Qed.

Ltac paired_leaf :=
  first [ apply Paired_alloc | apply Paired_arm_deadline | apply Paired_delete
        | apply Paired_clearTimeout | apply Paired_startPairing
        | apply Paired_cancelPairing ].

Lemma Paired_handle ev : Pres Paired (handle ev).
Proof. destruct ev; pres_all Paired paired_leaf. Qed.

Lemma Paired_run evs : Paired (run initial evs).
Proof.
  assert (∀ w, Paired w → Paired (run w evs)) as H.
  { induction evs as [|ev evs IH]; intros w Hw; [exact Hw|]. cbn. apply IH.
    unfold step. destruct (handle ev w) as [[] w'] eqn:E;
      apply (Paired_handle ev _ _ _ Hw E). }
  apply H. intros t ms. cbn. rewrite lookup_empty. discriminate.
Qed.

Lemma run_snoc w evs ev : run w (evs ++ [ev]) = step (run w evs) ev.
Proof. unfold run. rewrite foldl_app. reflexivity. Qed.

(** X6. In every world the adapter can reach at most one pairing deadline
    is armed, and it is the timer held in [this.timeout]. *)
Theorem one_pairing_deadline evs t1 t2 ms1 ms2 :
  let w := run initial evs in
  timers w !! t1 = Some (CancelPairingAfterDeadline, ms1) →
  timers w !! t2 = Some (CancelPairingAfterDeadline, ms2) →
  t1 = t2 ∧ timeout w = Some t1.
Proof.
  intros w H1 H2. pose proof (Paired_run evs _ _ H1) as E1.
  pose proof (Paired_run evs _ _ H2) as E2. fold w in E1, E2. split; congruence.
Qed.

(** X7. When the pairing deadline expires the adapter does exactly what
    [cancelPairing] does: provided the client takes the [removeScanner]
    call, the world after the timer has fired is the world after a call of
    [cancelPairing]. *)
Theorem pairing_deadline_cancels evs t ms :
  let w := run initial evs in
  timers w !! t = Some (CancelPairingAfterDeadline, ms) →
  client_throws (effects w) (RemoveScanner (scanner w)) = None →
  step w (Fire t) = step w CancelPairing.
Proof.
  intros w Ht Hc. pose proof (Paired_run evs _ _ Ht) as Et. fold w in Et.
  rewrite (step_cancelPairing w Hc), Et.
  unfold step, handle, fire, bind at 1, get. rewrite Ht.
  unfold bind at 1, modify.
  change (match cancelPairing (set_timers (delete t) w) with
          | (Ret _, w') => w'
          | (Throw e, w') => log (Uncaught e) w'
          end)
    with (step (set_timers (delete t) w) CancelPairing).
  rewrite step_cancelPairing by exact Hc. cbn. rewrite Et.
  unfold set_connecting, set_timeout, set_timers, log. cbn.
  rewrite delete_delete_eq. reflexivity.
Qed.

(** X8. [startPairing] is idempotent: a second call, whatever its
    timeout, changes nothing, even when the first call ended with
    [addScanner] throwing (the deadline was armed before that call). *)
Theorem startPairing_twice w timeoutSeconds timeoutSeconds' :
  step (step w (StartPairing timeoutSeconds)) (StartPairing timeoutSeconds')
  = step w (StartPairing timeoutSeconds).
Proof.
  assert (Hnoop : ∀ n w1 t, timeout w1 = Some t → step w1 (StartPairing n) = w1).
  { intros n w1 t H. unfold step, handle, startPairing, bind, get. rewrite H. reflexivity. }
  destruct (timeout w) as [t|] eqn:Et.
  - rewrite (Hnoop timeoutSeconds w t Et). apply (Hnoop _ w t Et).
  - apply (Hnoop _ _ (S (next w))).
    unfold step, handle, startPairing, bind at 1, get. rewrite Et.
    unfold bind, alloc, modify, setTimeout, on, client_call, bind, alloc, modify, ret.
    cbn -[add_listener]. destruct (client_throws _ _); reflexivity.
Qed.

(** X9. After a [cancelPairing] that the client has taken, no pairing
    deadline is left armed. *)
Theorem cancelPairing_disarms evs t ms :
  let w := run initial evs in
  client_throws (effects w) (RemoveScanner (scanner w)) = None →
  timers (step w CancelPairing) !! t ≠ Some (CancelPairingAfterDeadline, ms).
Proof.
  intros w Hc Ht. pose proof (Paired_run (evs ++ [CancelPairing]) t ms) as H.
  rewrite run_snoc in H. fold w in H. specialize (H Ht).
  rewrite (step_cancelPairing w Hc) in H. discriminate.
Qed.

(** ** The pending set holds no stale address *)

#[local] Instance NoStale_unobserved : Unobserved NoStale.
Proof. intros e w H. exact H. Qed.

#[local] Instance Tracked_unobserved : Unobserved Tracked.
Proof. intros e w H. exact H. Qed.

Lemma Pres_Tracked {A} (m : M A) : Pres Wf m → Pres NoStale m → Pres Tracked m.
Proof. intros H1 H2 w r w' [HW HN] E. split; [eapply H1|eapply H2]; eauto. Qed.

Lemma Wf_handle ev : Pres Wf (handle ev).
Proof.
  intros w r w' HW E. pose proof (Wf_step w ev HW) as H. unfold step in H.
  rewrite E in H. destruct r; exact H.
Qed.

Lemma NoStale_alloc : Pres NoStale alloc.
Proof. intros w r w' H [= <- <-]. exact H. Qed.

Lemma NoStale_alter_attempt f cc :
  (∀ a, flying (f a) = flying a) → Pres NoStale (modify (set_attempts (alter f cc))).
Proof.
  intros Hf. apply Pres_modify. intros w H b Hb. unfold flight. cbn.
  rewrite (flying_alter _ _ _ Hf). apply H, Hb.
Qed.

Lemma NoStale_FlicButton_new bdAddr cc client name :
  Pres NoStale (FlicButton_new bdAddr cc client name).
Proof.
  intros w r w' H. rewrite FlicButton_new_eq.
  destruct (client_throws _ _); intros [= <- <-]; exact H.
Qed.

Lemma NoStale_addDevice_rest bdAddr name cc body w r w' :
  (∀ b, b ∈ connecting w → b ≠ bdAddr → ∃ cc', flight w !! cc' = Some b) →
  body = ret tt ∨ (∃ e, body = throw e) →
  addDevice_rest bdAddr name cc body w = (r, w') → NoStale w'.
Proof.
  intros H Hbody.
  assert (HN : ∀ w0, connecting w0 = connecting w → flight w0 = flight w →
                     NoStale (torn_down bdAddr cc w0)).
  { intros w0 Ec Ef b. cbn. rewrite Ec, elem_of_difference, elem_of_singleton.
    intros [Hb Hne]. change (∃ cc', flight w0 !! cc' = Some b). rewrite Ef. auto. }
  destruct Hbody as [-> | [e ->]].
  - rewrite addDevice_rest_ret. unfold bind.
    destruct (FlicButton_new _ _ _ _ _) as [[] w1] eqn:E; intros [= <- <-];
      (eapply NoStale_FlicButton_new; [|exact E]; apply HN; reflexivity).
  - rewrite addDevice_rest_throw.
    destruct (client_throws _ _); [intros [= <- <-]; apply HN; reflexivity|].
    unfold bind.
    destruct (FlicButton_new _ _ _ _ _) as [[] w1] eqn:E; intros [= <- <-];
      (eapply NoStale_FlicButton_new; [|exact E]; apply HN; reflexivity).
Qed.

Lemma NoStale_addDevice_resume cc : Pres NoStale (addDevice_resume cc).
Proof.
  intros w r w' HN. unfold addDevice_resume, bind at 1, get.
  destruct (attempts w !! cc) as [a|] eqn:Ha; [|intros [= <- <-]; exact HN].
  destruct (a_awaiting a) eqn:Haw; [|intros [= <- <-]; exact HN].
  destruct (settled (a_p a)) eqn:Hs; [|intros [= <- <-]; exact HN].
  cbn [andb]. unfold bind at 1, modify. intros E.
  assert (Hcc : flight w !! cc = Some (a_bdAddr a)).
  { unfold flight. rewrite lookup_omap, Ha. cbn. unfold flying. rewrite Haw. reflexivity. }
  eapply NoStale_addDevice_rest; [| |exact E]; [|destruct (a_p a); eauto].
  intros b Hb Hne. destruct (HN b Hb) as [cc' Hcc']. exists cc'.
  unfold flight. cbn. rewrite lookup_omap, lookup_alter_ne; [rewrite <- lookup_omap; exact Hcc'|].
  intros <-. congruence.
Qed.

Lemma NoStale_cancelPairing : Pres NoStale cancelPairing.
Proof.
  intros w r w' H. unfold cancelPairing, bind at 1, get. unfold bind at 1, client_call.
  destruct (client_throws _ _); [intros [= <- <-]; exact H|].
  unfold bind, modify. destruct (timeout w); cbn; intros [= <- <-]; intros b Hb;
    cbn in Hb; exfalso; exact (not_elem_of_empty _ Hb).
Qed.

Lemma Tracked_addDevice bdAddr name tryToConnect :
  Pres Tracked (addDevice bdAddr name tryToConnect).
Proof.
  intros w r w' [HW HN] E. split; [exact (Wf_addDevice _ _ _ _ _ _ HW E)|].
  revert E. unfold addDevice, bind at 1, get.
  destruct (_ || _); [intros [= <- <-]; exact HN|].
  assert (Hlt : ∀ c b, flight w !! c = Some b → c ≠ next w).
  { intros c b Hc. destruct HW as [H1 _]. destruct (H1 _ _ Hc). lia. }
  destruct tryToConnect.
  - unfold bind, alloc, modify, on, outcome, client_call.
    cbn -[addDevice_rest add_listener].
    set (w1 := set_listeners _ _).
    assert (Hf1 : flight w1 = delete (next w) (flight w)).
    { unfold flight. cbn. rewrite omap_insert_None by reflexivity. reflexivity. }
    destruct (client_throws _ _) as [e|].
    + intros E. eapply NoStale_addDevice_rest; [| |exact E]; [|eauto].
      intros b. cbn. rewrite elem_of_union, elem_of_singleton.
      intros [Hb | ->] Hne; [|congruence]. destruct (HN b Hb) as [c Hc]. exists c.
      change (flight w1 !! c = Some b). rewrite Hf1. apply lookup_delete_Some.
      split; [|exact Hc]. intros Heq. exact (Hlt _ _ Hc (eq_sym Heq)).
    + intros [= <- <-]. intros b. cbn. rewrite elem_of_union, elem_of_singleton.
      unfold flight. cbn. rewrite alter_insert_eq.
      rewrite omap_insert_Some with (y := bdAddr) by reflexivity.
      intros [Hb | ->].
      * destruct (HN b Hb) as [c Hc]. exists c. rewrite lookup_insert_ne; eauto.
        intros <-. eapply Hlt; eauto.
      * exists (next w). apply lookup_insert_eq.
  - unfold bind at 1, alloc. unfold bind at 1, modify. unfold bind at 1, client_call.
    cbn [effects set_channels set_next].
    destruct (client_throws _ _); [intros [= <- <-]; exact HN|].
    unfold bind. destruct (FlicButton_new _ _ _ _ _) as [[] w2] eqn:E2; intros [= <- <-];
      (eapply NoStale_FlicButton_new; [|exact E2]; exact HN).
Qed.

Ltac nostale_leaf :=
  first [ apply NoStale_alloc | apply NoStale_addDevice_resume | apply NoStale_cancelPairing
        | apply NoStale_alter_attempt; first [intros; apply flying_settle | reflexivity]
        | open_pairing | progress unfold setTimeout, clearTimeout ].

Lemma Tracked_run_listener l s : Pres Tracked (run_listener l s).
Proof.
  destruct l;
    try solve [apply Pres_Tracked;
               [apply Wf_run_listener|destruct s; pres_all NoStale nostale_leaf]].
  destruct s; cbn [run_listener]; try apply Pres_ret. unfold onAdvertisementPacket.
  destruct isPrivate; [apply (Pres_log Tracked)|].
  apply (Pres_call_async Tracked), Tracked_addDevice.
Qed.

Lemma Tracked_handle ev : Pres Tracked (handle ev).
Proof.
  destruct ev;
    try solve [apply Pres_Tracked; [apply Wf_handle|pres_all NoStale nostale_leaf]].
  - unfold handle, emit. apply Pres_get_bind. intros w. apply Pres_for_each.
    intros l. apply Tracked_run_listener.
  - apply Pres_Tracked; [apply Wf_handle|].
    apply (Pres_call_async NoStale), NoStale_addDevice_resume.
Qed.

Lemma Tracked_run evs : Tracked (run initial evs).
Proof.
  assert (∀ w, Tracked w → Tracked (run w evs)) as H.
  { induction evs as [|ev evs IH]; intros w Hw; [exact Hw|]. cbn. apply IH.
    unfold step. destruct (handle ev w) as [[] w'] eqn:E;
      apply (Tracked_handle ev _ _ _ Hw E). }
  apply H. split; [apply Wf_initial|]. intros b Hb. cbn in Hb.
  exfalso. exact (not_elem_of_empty _ Hb).
Qed.

(** X10. The [connecting] set never holds a stale address: in every world
    the adapter can reach, whatever the client does, each address in the
    set belongs to a call of [addDevice] that is suspended at [await p]. *)
Theorem connecting_has_attempt evs bdAddr :
  let w := run initial evs in
  bdAddr ∈ connecting w →
  ∃ cc a, attempts w !! cc = Some a ∧ a_awaiting a = true ∧ a_bdAddr a = bdAddr.
Proof.
  intros w Hb. destruct (Tracked_run evs) as [_ HN]. destruct (HN bdAddr Hb) as [cc Hcc].
  unfold flight in Hcc. apply lookup_omap_Some in Hcc as (a & Hfly & Ha).
  exists cc, a. unfold flying in Hfly. destruct (a_awaiting a); [|discriminate].
  injection Hfly as ->. auto.
Qed.

(** ** Replaying the verified buttons at start-up *)

Lemma addDevice_direct bdAddr name w :
  ∃ r w', addDevice bdAddr name false w = (r, w') ∧
    connecting w' = connecting w ∧ attempts w' = attempts w ∧ timers w' = timers w ∧
    ((∀ h c, client_throws h c = None) →
     ∀ id, id ∈ dom (devices w') ↔
           id ∈ dom (devices w) ∨ ((bdAddr ∉ connecting w) ∧ id = device_id bdAddr)).
Proof.
  unfold addDevice, bind at 1, get.
  destruct (bool_decide (device_id bdAddr ∈ dom (devices w))) eqn:Ed.
  { apply bool_decide_eq_true in Ed. cbn. eexists _, _. split; [reflexivity|].
    repeat (split; [reflexivity|]). intros _ id. cbn. split; [auto|].
    intros [H | [_ ->]]; assumption. }
  destruct (bool_decide (bdAddr ∈ connecting w)) eqn:Ec.
  { apply bool_decide_eq_true in Ec. cbn. eexists _, _. split; [reflexivity|].
    repeat (split; [reflexivity|]). intros _ id. cbn. tauto. }
  apply bool_decide_eq_false in Ec. cbn [orb].
  unfold bind at 1, alloc. unfold bind at 1, modify. unfold bind at 1, client_call.
  cbn [effects set_channels set_next].
  destruct (client_throws (effects w) (AddConnectionChannel (next w))) as [e|] eqn:E1.
  { eexists _, _. split; [reflexivity|]. repeat (split; [reflexivity|]).
    intros Hrel. rewrite Hrel in E1. discriminate. }
  unfold bind. rewrite FlicButton_new_eq.
  cbn [effects log set_channels set_next next].
  destruct (client_throws (effects w ++ [Client (AddConnectionChannel (next w))])
                          (AddBatteryStatusListener (S (S (next w))))) as [e|] eqn:E2.
  { eexists _, _. split; [reflexivity|]. repeat (split; [reflexivity|]).
    intros Hrel. rewrite Hrel in E2. discriminate. }
  eexists _, _. split; [reflexivity|]. repeat (split; [reflexivity|]).
  intros _ id. cbn. rewrite dom_insert_L, elem_of_union, elem_of_singleton. tauto.
Qed.

Lemma onReady_replays l : ∀ w,
  ∃ w', onReady l w = (Ret tt, w') ∧
    connecting w' = connecting w ∧ attempts w' = attempts w ∧ timers w' = timers w ∧
    ((∀ h c, client_throws h c = None) →
     ∀ id, id ∈ dom (devices w') ↔
           id ∈ dom (devices w) ∨ ∃ a, a ∈ l ∧ (a ∉ connecting w) ∧ id = device_id a).
Proof.
  unfold onReady. induction l as [|x l IH]; intros w.
  - exists w. split; [reflexivity|]. repeat (split; [reflexivity|]).
    intros _ id. split; [auto|]. intros [H | (a & Ha & _)]; [exact H|].
    exfalso. exact (not_elem_of_nil _ Ha).
  - cbn [for_each]. unfold bind at 1, call_async at 1.
    destruct (addDevice_direct x Undefined w) as (r1 & w1 & E1 & Hc1 & Ha1 & Ht1 & Hd1).
    rewrite E1.
    assert (∃ w1', (let (r, w') := match r1 with
                                   | Ret _ => (Ret (), w1)
                                   | Throw e => (Ret (), log (UnhandledRejection e) w1)
                                   end in
                    match r with
                    | Ret a => (λ _ : (), for_each l
                                 (λ bdAddr, call_async (addDevice bdAddr Undefined false))) a w'
                    | Throw e => (Throw e, w')
                    end)
                   = for_each l (λ bdAddr, call_async (addDevice bdAddr Undefined false)) w1' ∧
                   connecting w1' = connecting w1 ∧ attempts w1' = attempts w1 ∧
                   timers w1' = timers w1 ∧ devices w1' = devices w1)
      as (w1' & -> & Hc & Ha & Ht & Hd).
    { destruct r1; eexists; (split; [reflexivity|]); auto. }
    destruct (IH w1') as (w' & E & Hc' & Ha' & Ht' & Hd'). exists w'.
    split; [exact E|]. split; [congruence|]. split; [congruence|]. split; [congruence|].
    intros Hrel id. rewrite (Hd' Hrel), Hd, (Hd1 Hrel), Hc, Hc1. split.
    + intros [[H | [Hx ->]] | (a & Ha0 & Hn & ->)]; [auto| |].
      * right. exists x. split; [apply elem_of_cons; auto|auto].
      * right. exists a. split; [apply elem_of_cons; auto|auto].
    + intros [H | (a & Ha0 & Hn & ->)]; [auto|].
      apply elem_of_cons in Ha0 as [-> | Ha0]; [auto|]. right. eauto.
Qed.

Lemma firsts_ext g1 g2 l : (∀ x, g1 x = g2 x) → firsts g1 l = firsts g2 l.
Proof.
  revert g1 g2. induction l as [|a l IH]; intros g1 g2 H; [reflexivity|].
  cbn. rewrite <- (H a). destruct (g1 a); [apply IH, H|].
  f_equal. apply IH. intros x. rewrite H. reflexivity.
Qed.

Lemma firsts_closed g l x : x ∈ firsts g l → g x = false.
Proof.
  revert g. induction l as [|a l IH]; intros g; cbn; [intros H; inversion H|].
  destruct (g a) eqn:Ea; [apply IH|].
  intros [-> | H]%elem_of_cons; [exact Ea|].
  apply IH in H. apply orb_false_iff in H. tauto.
Qed.

Lemma firsts_elem g l x : x ∈ firsts g l ↔ x ∈ l ∧ g x = false.
Proof.
  revert g. induction l as [|a l IH]; intros g; cbn.
  - split; [intros H; inversion H|intros [H _]; inversion H].
  - destruct (g a) eqn:Ea.
    + rewrite IH, elem_of_cons. split; [tauto|].
      intros [[-> | H] Hx]; [congruence|tauto].
    + rewrite !elem_of_cons, IH, orb_false_iff, bool_decide_eq_false. split.
      * intros [-> | (H & _ & Hg)]; auto.
      * intros [[-> | H] Hg]; [auto|]. destruct (decide (x = a)); auto.
Qed.

Lemma firsts_NoDup g l : NoDup (firsts g l).
Proof.
  revert g. induction l as [|a l IH]; intros g; cbn; [constructor|].
  destruct (g a) eqn:Ea; [apply IH|]. constructor; [|apply IH].
  intros H%firsts_closed. rewrite bool_decide_eq_true_2 in H by reflexivity.
  discriminate.
Qed.

Lemma addDevice_replays bdAddr w :
  (∀ h c, client_throws h c = None) →
  addDevice bdAddr Undefined false w
  = (Ret tt, if gated w bdAddr then w else registered bdAddr w).
Proof.
  intros Hrel. unfold addDevice, bind at 1, get, gated.
  destruct (_ || _); [reflexivity|].
  unfold bind at 1, alloc. unfold bind at 1, modify. unfold bind at 1, client_call.
  rewrite Hrel. unfold bind at 1. rewrite FlicButton_new_eq, Hrel. reflexivity.
Qed.

Lemma onReady_registers l :
  (∀ h c, client_throws h c = None) → ∀ w,
  onReady l w
  = (Ret tt, foldl (fun w a => if gated w a then w else registered a w) w l).
Proof.
  intros Hrel. unfold onReady. induction l as [|a l IH]; intros w; [reflexivity|].
  cbn [for_each foldl]. unfold bind at 1, call_async at 1.
  rewrite (addDevice_replays _ _ Hrel). apply IH.
Qed.

Lemma gated_registered a w x :
  gated (registered a w) x = bool_decide (x = a) || gated w x.
Proof.
  unfold gated.
  change (devices (registered a w)) with (<[device_id a := S (next w)]> (devices w)).
  change (connecting (registered a w)) with (connecting w).
  rewrite dom_insert_L. destruct (decide (x = a)) as [-> | Hne].
  - rewrite (bool_decide_eq_true_2 (a = a)) by reflexivity. cbn [orb].
    rewrite bool_decide_eq_true_2
      by (apply elem_of_union_l, elem_of_singleton; reflexivity).
    reflexivity.
  - rewrite (bool_decide_eq_false_2 (x = a)) by exact Hne. cbn. f_equal.
    apply bool_decide_ext. rewrite elem_of_union, elem_of_singleton. split; [|auto].
    intros [H%device_id_inj | H]; [contradiction|exact H].
Qed.

Lemma registrations_fold l : ∀ w,
  let w' := foldl (fun w a => if gated w a then w else registered a w) w l in
  let new := firsts (gated w) l in
  next w' = (next w + 3 * length new)%nat ∧
  effects w' = effects w ++ registrations (next w) (length new) ∧
  (∀ i a, new !! i = Some a →
     let cc := (next w + 3 * i)%nat in
     channels w' !! cc = Some a ∧
     buttons w' !! S cc
     = Some (mkFlicButton (device_id a) ("Flic button " +:+ a) a cc 100 false (S (S cc))) ∧
     devices w' !! device_id a = Some (S cc)) ∧
  (∀ id, (∀ a, a ∈ new → id ≠ device_id a) → devices w' !! id = devices w !! id) ∧
  (∀ k, (k < next w)%nat →
        buttons w' !! k = buttons w !! k ∧ channels w' !! k = channels w !! k).
Proof.
  induction l as [|x l IH]; intros w.
  - cbn. rewrite Nat.add_0_r, app_nil_r. repeat (split; [reflexivity|]).
    split; [intros i a Hi; rewrite lookup_nil in Hi; discriminate|]. auto.
  - cbn [foldl firsts]. destruct (gated w x) eqn:Eg; [exact (IH w)|].
    specialize (IH (registered x w)). cbn zeta in IH.
    rewrite (firsts_ext _ _ l (gated_registered x w)) in IH.
    set (new := firsts (fun y => bool_decide (y = x) || gated w y) l) in *.
    set (w' := foldl _ (registered x w) l) in *.
    destruct IH as (Hn & He & Hl & Hd & Hk).
    change (next (registered x w)) with (S (S (S (next w)))) in *.
    assert (Hx : ∀ a, a ∈ new → device_id x ≠ device_id a).
    { intros a Ha%firsts_closed E%device_id_inj. subst a.
      rewrite bool_decide_eq_true_2 in Ha by reflexivity. discriminate. }
    cbn zeta. split; [cbn [length]; lia|]. split; [|split; [|split]].
    + rewrite He. cbn. rewrite <- !app_assoc. reflexivity.
    + intros [|i] a Hi.
      * injection Hi as <-. rewrite Nat.mul_0_r, Nat.add_0_r.
        destruct (Hk (next w)) as [_ Hc]; [lia|].
        destruct (Hk (S (next w))) as [Hb _]; [lia|].
        rewrite Hc, Hb, (Hd _ Hx). cbn.
        rewrite !lookup_insert_eq. auto.
      * replace (next w + 3 * S i)%nat with (S (S (S (next w))) + 3 * i)%nat by lia.
        exact (Hl i a Hi).
    + intros id Hid. rewrite Hd by (intros a Ha; apply Hid, elem_of_cons; auto).
      cbn. apply lookup_insert_ne. intros E. apply (Hid x); [apply elem_of_cons; auto|].
      symmetry. exact E.
    + intros k Hlt. destruct (Hk k) as [Hb Hc]; [lia|]. rewrite Hb, Hc. cbn.
      rewrite !lookup_insert_ne by lia. auto.
Qed.

(** X11. Replaying the buttons the daemon has already verified starts no
    connection attempt: the [connecting] set, the attempts and the timers
    are as before, whatever the client does.  With a client that takes
    every call, the replay registers the replayed addresses that have no
    device and are not being connected, each once however often it is
    listed, in the order of their first occurrence.  Each gets a channel, a
    button and a battery listener of its own, three fresh objects in a row;
    the button is named after the address, starts released with battery
    100, and is the device the registry holds for the address.  The client
    and the host see one [addConnectionChannel], one
    [addBatteryStatusListener] and one notification per registration and
    nothing else.  The other entries of the registry and the buttons and
    channels that existed before are untouched. *)
Theorem replay_registers_without_attempts w l :
  let w' := step w (ClientReady l) in
  connecting w' = connecting w ∧ attempts w' = attempts w ∧ timers w' = timers w ∧
  ((∀ h c, client_throws h c = None) →
   let new := firsts (gated w) l in
   NoDup new ∧
   (∀ a, a ∈ new ↔ a ∈ l ∧ (device_id a ∉ dom (devices w)) ∧ (a ∉ connecting w)) ∧
   next w' = (next w + 3 * length new)%nat ∧
   effects w' = effects w ++ registrations (next w) (length new) ∧
   (∀ i a, new !! i = Some a →
      let cc := (next w + 3 * i)%nat in
      channels w' !! cc = Some a ∧
      buttons w' !! S cc
      = Some (mkFlicButton (device_id a) ("Flic button " +:+ a) a cc 100 false
                           (S (S cc))) ∧
      devices w' !! device_id a = Some (S cc)) ∧
   (∀ id, (∀ a, a ∈ new → id ≠ device_id a) → devices w' !! id = devices w !! id) ∧
   (∀ k, (k < next w)%nat →
         buttons w' !! k = buttons w !! k ∧ channels w' !! k = channels w !! k)).
Proof.
  intros w'. destruct (onReady_replays l w) as (w1 & E & Hc & Ha & Ht & _).
  assert (w' = w1) as -> by (subst w'; unfold step, handle; rewrite E; reflexivity).
  split; [exact Hc|]. split; [exact Ha|]. split; [exact Ht|].
  intros Hrel new. rewrite (onReady_registers l Hrel) in E. injection E as <-.
  split; [apply firsts_NoDup|]. split; [|exact (registrations_fold l w)].
  intros a. unfold new. rewrite firsts_elem. unfold gated.
  rewrite orb_false_iff, !bool_decide_eq_false. tauto.
Qed.

(** X12. Registering a verified button and removing it again is a round
    trip for the registry: with a client that takes every call, the
    devices, the [connecting] set, the attempts and the timers are as
    before, and the client has seen the channel and the battery listener
    added and removed and the button deleted, in that order. *)
Theorem register_then_remove w bdAddr :
  (∀ h c, client_throws h c = None) →
  device_id bdAddr ∉ dom (devices w) → bdAddr ∉ connecting w →
  let w1 := step w (ClientReady [bdAddr]) in
  let w2 := step w1 (RemoveThing (S (next w))) in
  devices w1 !! device_id bdAddr = Some (S (next w)) ∧
  devices w2 = devices w ∧ connecting w2 = connecting w ∧
  attempts w2 = attempts w ∧ timers w2 = timers w ∧
  effects w2 = effects w ++ [Client (AddConnectionChannel (next w));
                             Client (AddBatteryStatusListener (S (S (next w))));
                             HostDeviceAdded (S (next w));
                             Client (RemoveConnectionChannel (next w));
                             Client (RemoveBatteryStatusListener (S (S (next w))));
                             Client (DeleteButton bdAddr);
                             HostDeviceRemoved (S (next w))].
Proof.
  intros Hrel Hd Hc w1 w2.
  assert (E1 : w1 = log (HostDeviceAdded (S (next w)))
                      (set_devices <[device_id bdAddr := S (next w)]>
                         (constructing bdAddr (next w) Undefined
                            (log (Client (AddConnectionChannel (next w)))
                               (set_channels <[next w := bdAddr]>
                                  (set_next (S (next w)) w)))))).
  { subst w1. unfold step, handle, onReady. cbn [for_each].
    unfold bind at 1, call_async, addDevice, bind at 1, get.
    rewrite (bool_decide_eq_false_2 _ Hd), (bool_decide_eq_false_2 _ Hc). cbn [orb].
    unfold bind at 1, alloc. unfold bind at 1, modify. unfold bind at 1, client_call.
    rewrite Hrel. unfold bind at 1. rewrite FlicButton_new_eq, Hrel. reflexivity. }
  assert (Eb : buttons w1 !! S (next w)
               = Some (mkFlicButton (device_id bdAddr) ("Flic button " +:+ bdAddr) bdAddr
                                    (next w) 100 false (S (S (next w))))).
  { rewrite E1. cbn. apply lookup_insert_eq. }
  assert (E2 : w2 = log (HostDeviceRemoved (S (next w)))
                      (set_devices (delete (device_id bdAddr))
                         (log (Client (DeleteButton bdAddr))
                            (log (Client (RemoveBatteryStatusListener (S (S (next w)))))
                               (log (Client (RemoveConnectionChannel (next w)))
                                  (set_listeners (delete (next w, "buttonUpOrDown")) w1)))))).
  { subst w2. unfold step, handle, removeThing, unload, super_removeThing, bind, get,
      removeAllListeners, modify, client_call. rewrite Eb. cbn. rewrite !Hrel. cbn.
    rewrite Eb. cbn. rewrite Hrel. cbn. rewrite Eb. reflexivity. }
  split; [rewrite E1; cbn; apply lookup_insert_eq|].
  rewrite E2, E1. cbn. split; [apply delete_insert_id, not_elem_of_dom, Hd|].
  do 3 (split; [reflexivity|]). rewrite <- !app_assoc. reflexivity.
Qed.

(** X13. When the client throws on [removeConnectionChannel], removing a
    device stops half way: the [buttonUpOrDown] listeners of its channel
    are already gone, but the battery listener is not removed, the button
    is not deleted at the daemon, and the device stays in the registry,
    the host not being told. *)
Theorem removeThing_interrupted w thing b e :
  buttons w !! thing = Some b →
  client_throws (effects w) (RemoveConnectionChannel (b_cc b)) = Some e →
  let w' := step w (RemoveThing thing) in
  devices w' = devices w ∧
  effects w' = effects w ++ [Client (RemoveConnectionChannel (b_cc b)); Uncaught e] ∧
  listeners_of w' (b_cc b) "buttonUpOrDown" = [].
Proof.
  intros Hb He w'. subst w'.
  unfold step, handle, removeThing, unload, bind, get, removeAllListeners, modify,
    client_call. rewrite Hb. cbn. rewrite He. cbn. unfold listeners_of. cbn.
  rewrite lookup_delete_eq, <- app_assoc. auto.
Qed.

(** ** The other signals of an attempt *)

(** X14. A [connectionStatusChanged] signal whose status is not "Ready"
    (the button connected but is not verified yet, or it disconnected)
    neither resolves nor fails an attempt in flight: the world is
    unchanged. *)
Theorem status_other_than_Ready_is_ignored evs cc a connectionStatus disconnectReason :
  let w := run initial evs in
  attempts w !! cc = Some a → a_awaiting a = true →
  connectionStatus ≠ "Ready" →
  step w (Emit cc (connectionStatusChanged connectionStatus disconnectReason)) = w.
Proof.
  intros w Ha Haw Hs. destruct (in_flight_wired evs cc a Ha Haw) as (_ & Hl & _).
  unfold step, handle.
  rewrite (emit_one cc (connectionStatusChanged connectionStatus disconnectReason) _ w Hl).
  unfold run_listener, onConnectionStatusChanged.
  rewrite (bool_decide_eq_false_2 _ Hs). reflexivity.
Qed.

(** X15. A [removed] signal fails a pending attempt in flight with the
    reason it carries, except that "RemovedByThisClient" is reported as
    "Timed out"; nothing is logged and no timer is touched until
    [addDevice] resumes, which logs the reason and asks the client once
    more to remove the channel. *)
Theorem removed_rejects_with_reason evs cc a removedReason :
  let w := run initial evs in
  attempts w !! cc = Some a → a_awaiting a = true → a_p a = Pending →
  let reason := if bool_decide (removedReason = "RemovedByThisClient")
                then "Timed out" else removedReason in
  let w1 := step w (Emit cc (removed removedReason)) in
  let w2 := step w1 (Resume cc) in
  attempts w1 !! cc = Some (with_p (Rejected reason) a) ∧
  effects w1 = effects w ∧ timers w1 = timers w ∧
  ∃ rest, effects w2 = effects w ++ ConsoleError reason
                                 :: Client (RemoveConnectionChannel cc) :: rest.
Proof.
  intros w Ha Haw Hp reason w1 w2.
  destruct (in_flight_wired evs cc a Ha Haw) as (_ & _ & Hl).
  assert (E1 : w1 = set_attempts (alter (settle (Rejected reason)) cc) w).
  { subst w1 reason. unfold step, handle.
    rewrite (emit_one cc (removed removedReason) _ w Hl).
    unfold run_listener, onRemoved. case_bool_decide; reflexivity. }
  assert (Ha1 : attempts w1 !! cc = Some (with_p (Rejected reason) a)).
  { rewrite E1. cbn. rewrite lookup_alter_eq, Ha. cbn. unfold settle. rewrite Hp.
    reflexivity. }
  split; [exact Ha1|]. split; [rewrite E1; reflexivity|]. split; [rewrite E1; reflexivity|].
  subst w2. rewrite (step_resume _ _ _ Ha1) by (cbn; auto).
  cbn [a_p with_p a_bdAddr a_name]. rewrite addDevice_rest_throw.
  unfold bind. rewrite FlicButton_new_eq. rewrite E1.
  destruct (client_throws _ _) as [e1|]; [|destruct (client_throws _ _) as [e2|]];
    cbn; rewrite <- ?app_assoc; eexists; reflexivity.
Qed.

(** ** A pairing that succeeds *)

#[local] Instance Fresh_unobserved : Unobserved Fresh.
Proof. intros e w H. exact H. Qed.

Lemma Fresh_alloc : Pres Fresh alloc.
Proof.
  intros w r w' H [= <- <-] t Ht. specialize (H t Ht). cbn. lia.
Qed.

Lemma Fresh_setTimeout cb ms : Pres Fresh (setTimeout cb ms).
Proof.
  intros w r w' H [= <- <-] t. cbn. rewrite lookup_insert.
  case_decide; [intros _; lia|]. intros Ht. specialize (H t Ht). lia.
Qed.

Lemma Fresh_delete t : Pres Fresh (modify (set_timers (delete t))).
Proof.
  apply Pres_modify. intros w H t'. cbn. rewrite lookup_delete.
  case_decide; [intros []; discriminate|]. apply H.
Qed.

Lemma Fresh_clearTimeout t : Pres Fresh (clearTimeout t).
Proof. destruct t; [apply Fresh_delete|apply Pres_ret]. Qed.

Ltac fresh_leaf :=
  first [ apply Fresh_alloc | apply Fresh_setTimeout | apply Fresh_delete
        | apply Fresh_clearTimeout | open_pairing ].

Lemma Fresh_handle ev : Pres Fresh (handle ev).
Proof. destruct ev; pres_all Fresh fresh_leaf. Qed.

Lemma Fresh_run evs : Fresh (run initial evs).
Proof.
  assert (∀ w, Fresh w → Fresh (run w evs)) as H.
  { induction evs as [|ev evs IH]; intros w Hw; [exact Hw|]. cbn. apply IH.
    unfold step. destruct (handle ev w) as [[] w'] eqn:E;
      apply (Fresh_handle ev _ _ _ Hw E). }
  apply H. intros t. cbn. rewrite lookup_empty. intros []. discriminate.
Qed.

(** X16. A pairing that succeeds leaves nothing behind.  For an attempt in
    flight that has had no response yet: the daemon accepts the channel
    (which arms the deadline of 30 seconds), the button then reports
    "Ready", and [addDevice] resumes.  Afterwards the armed timers are
    exactly those armed before, the address has left the [connecting] set,
    the three listeners are off the channel, no error was logged and no
    channel removed, and the device is registered. *)
Theorem pairing_succeeds_cleanly evs cc a connectionStatus disconnectReason :
  let w := run initial evs in
  attempts w !! cc = Some a → a_awaiting a = true → a_p a = Pending →
  a_timeout a = None → connectionStatus ≠ "Ready" →
  client_throws (effects w) (AddBatteryStatusListener (S (S (next w)))) = None →
  let w1 := step w (Emit cc (createResponse "NoError" connectionStatus)) in
  let w3 := run w1 [Emit cc (connectionStatusChanged "Ready" disconnectReason); Resume cc] in
  timers w1 = <[next w := (RemoveChannelAfterDeadline cc, 30000)]> (timers w) ∧
  timers w3 = timers w ∧
  connecting w3 = connecting w ∖ {[a_bdAddr a]} ∧
  torn (a_bdAddr a) cc (Some (next w)) w3 ∧
  devices w3 = <[device_id (a_bdAddr a) := S (next w)]> (devices w) ∧
  effects w3 = effects w ++ [Client (AddBatteryStatusListener (S (S (next w))));
                             HostDeviceAdded (S (next w))].
Proof.
  intros w Ha Haw Hp Hto Hs Hb w1 w3.
  destruct (in_flight_wired evs cc a Ha Haw) as (Hl1 & Hl2 & _).
  assert (Hfresh : timers w !! next w = None).
  { apply eq_None_not_Some. intros H. pose proof (Fresh_run evs _ H) as Hlt.
    fold w in Hlt. lia. }
  assert (E1 : w1 = set_attempts (alter (with_timeout (Some (next w))) cc)
                      (set_timers <[next w := (RemoveChannelAfterDeadline cc, 30000)]>
                         (set_next (S (next w)) w))).
  { subst w1. rewrite (step_createResponse _ _ _ _ Hl1).
    rewrite (bool_decide_eq_false_2 _ Hs). reflexivity. }
  assert (E2 : step w1 (Emit cc (connectionStatusChanged "Ready" disconnectReason))
               = set_attempts (alter (settle (Fulfilled cc)) cc) w1).
  { apply step_connectionStatusChanged_Ready. rewrite E1. exact Hl2. }
  assert (Ha2 : attempts (set_attempts (alter (settle (Fulfilled cc)) cc) w1) !! cc
                = Some (with_p (Fulfilled cc) (with_timeout (Some (next w)) a))).
  { rewrite E1. cbn. rewrite !lookup_alter_eq, Ha. cbn. unfold settle. cbn. rewrite Hp.
    reflexivity. }
  assert (E3 : w3 = step (set_attempts (alter (settle (Fulfilled cc)) cc) w1) (Resume cc)).
  { subst w3. cbn. rewrite E2. reflexivity. }
  assert (Ht : torn (a_bdAddr a) cc (Some (next w)) w3).
  { rewrite E3, (step_resume _ _ _ Ha2) by (cbn; auto).
    destruct (addDevice_rest _ _ _ _ _) as [r wr] eqn:E.
    assert (torn (a_bdAddr a) cc (Some (next w)) wr).
    { eapply (torn_addDevice_rest _ _ _ _
                (with_awaiting false
                   (with_p (Fulfilled cc) (with_timeout (Some (next w)) a))));
        [| |exact E]; [cbn; eauto|].
      cbn. rewrite lookup_alter_eq.
      change (attempts (set_attempts _ w1)) with
        (alter (settle (Fulfilled cc)) cc (attempts w1)) in Ha2.
      rewrite Ha2. reflexivity. }
    destruct r; [assumption | apply torn_log; assumption]. }
  rewrite (step_resume _ _ _ Ha2) in E3 by (cbn; auto).
  cbn [a_p with_p with_timeout a_bdAddr a_name] in E3. rewrite addDevice_rest_ret in E3.
  assert (Hlk : attempts (set_attempts (alter (with_awaiting false) cc)
                            (set_attempts (alter (settle (Fulfilled cc)) cc) w1)) !! cc
                = Some (with_awaiting false
                          (with_p (Fulfilled cc) (with_timeout (Some (next w)) a)))).
  { cbn. rewrite lookup_alter_eq. change (attempts (set_attempts _ w1)) with
      (alter (settle (Fulfilled cc)) cc (attempts w1)) in Ha2. rewrite Ha2. reflexivity. }
  unfold bind in E3. rewrite FlicButton_new_eq in E3. unfold torn_down in E3.
  rewrite Hlk in E3. cbn [a_timeout with_awaiting with_p with_timeout] in E3.
  rewrite E1 in E3.
  cbn [effects next set_connecting set_listeners set_timers set_attempts set_next] in E3.
  rewrite Hb in E3.
  split; [rewrite E1; reflexivity|].
  split; [rewrite E3; cbn; apply delete_insert_id, Hfresh|].
  split; [rewrite E3; reflexivity|]. split; [exact Ht|].
  split; [rewrite E3; reflexivity|]. rewrite E3. cbn. rewrite <- app_assoc. reflexivity.
Qed.

(** ** A registered button *)

(** X17. A button registered at start-up is named after its address and
    starts released, with battery 100; from then on [pushed] is true
    exactly after a [buttonUpOrDown] signal "ButtonDown" on its channel and
    [battery] is the last percentage its battery listener received, the
    host being notified of each change once. *)
Theorem new_button_tracks_signals evs bdAddr clickType percentage :
  (∀ h c, client_throws h c = None) →
  let w := run initial evs in
  device_id bdAddr ∉ dom (devices w) → bdAddr ∉ connecting w →
  let w1 := step w (ClientReady [bdAddr]) in
  let w3 := run w1 [Emit (next w) (buttonUpOrDown clickType);
                    Emit (S (S (next w))) (batteryStatus percentage)] in
  buttons w1 !! S (next w)
  = Some (mkFlicButton (device_id bdAddr) ("Flic button " +:+ bdAddr) bdAddr (next w)
                       100 false (S (S (next w)))) ∧
  buttons w3 !! S (next w)
  = Some (mkFlicButton (device_id bdAddr) ("Flic button " +:+ bdAddr) bdAddr (next w)
                       percentage (bool_decide (clickType = "ButtonDown"))
                       (S (S (next w)))) ∧
  effects w3 = effects w1 ++ [HostPropertyChanged (S (next w)) "pushed";
                              HostPropertyChanged (S (next w)) "battery"].
Proof.
  intros Hrel w Hd Hc w1 w3.
  assert (Hnone : ∀ o ev, (next w ≤ o)%nat → listeners w !! (o, ev) = None).
  { intros o ev Hle. apply eq_None_not_Some. intros H.
    destruct (Wf_run evs initial Wf_initial) as [_ H2]. specialize (H2 _ _ H).
    fold w in H2. lia. }
  assert (E1 : w1 = log (HostDeviceAdded (S (next w)))
                      (set_devices <[device_id bdAddr := S (next w)]>
                         (constructing bdAddr (next w) Undefined
                            (log (Client (AddConnectionChannel (next w)))
                               (set_channels <[next w := bdAddr]>
                                  (set_next (S (next w)) w)))))).
  { subst w1. unfold step, handle, onReady. cbn [for_each].
    unfold bind at 1, call_async, addDevice, bind at 1, get.
    rewrite (bool_decide_eq_false_2 _ Hd), (bool_decide_eq_false_2 _ Hc). cbn [orb].
    unfold bind at 1, alloc. unfold bind at 1, modify. unfold bind at 1, client_call.
    rewrite Hrel. unfold bind at 1. rewrite FlicButton_new_eq, Hrel. reflexivity. }
  assert (Hl1 : listeners_of w1 (next w) "buttonUpOrDown" = [OnButtonUpOrDown (S (next w))]).
  { rewrite E1. unfold listeners_of. cbn -[add_listener].
    rewrite !add_listener_other by discriminate.
    rewrite add_listener_fresh by (apply Hnone; lia). reflexivity. }
  assert (E2 : step w1 (Emit (next w) (buttonUpOrDown clickType))
               = log (HostPropertyChanged (S (next w)) "pushed")
                   (set_buttons
                      (alter (with_pushed (bool_decide (clickType = "ButtonDown")))
                             (S (next w))) w1)).
  { unfold step, handle. rewrite (emit_one _ (buttonUpOrDown clickType) _ w1 Hl1).
    reflexivity. }
  assert (Hl2 : listeners_of (step w1 (Emit (next w) (buttonUpOrDown clickType)))
                  (S (S (next w))) "batteryStatus" = [OnBatteryStatus (S (next w))]).
  { rewrite E2, E1. unfold listeners_of. cbn -[add_listener].
    rewrite add_listener_fresh; [reflexivity|].
    rewrite !add_listener_other by discriminate. apply Hnone. lia. }
  assert (E3 : w3 = log (HostPropertyChanged (S (next w)) "battery")
                      (set_buttons (alter (with_battery percentage) (S (next w)))
                         (step w1 (Emit (next w) (buttonUpOrDown clickType))))).
  { subst w3. cbn [run foldl]. unfold step at 1, handle.
    rewrite (emit_one _ (batteryStatus percentage) _ _ Hl2). reflexivity. }
  split; [rewrite E1; cbn; apply lookup_insert_eq|].
  rewrite E3, E2. cbn. rewrite !lookup_alter_eq. rewrite E1. cbn.
  rewrite lookup_insert_eq. cbn. split; [reflexivity|].
  rewrite <- !app_assoc. reflexivity.
Qed.

End Adapter.

(** * The properties at work on sample runs *)

Lemma teardown_on_every_resolution_witness :
  torn kitchen 2 None (run reliable initial rejected) ∧
  torn kitchen 0 None (snd (addDevice offline kitchen (Str "Kitchen") true initial)) ∧
  timers (run reliable initial connected) !! 3%nat
  ≠ Some (RemoveChannelAfterDeadline 2, 30000).
Proof.
  split; [|split].
  - destruct (teardown_on_every_resolution reliable) as [H _].
    refine (proj1 (H (run reliable initial
                        (discovered ++ [Emit 2 (createResponse "MaxPendingConnectionsReached"
                                                               "Disconnected")]))
                     2%nat
                     (mkAttempt kitchen (Str "Kitchen") None
                                (Rejected "Too many pending connections") true)
                     _ _ _));
      vm_compute; reflexivity.
  - destruct (teardown_on_every_resolution offline) as (_ & H & _).
    refine (proj1 (H initial kitchen (Str "Kitchen") "Error: not connected"
                     (fst (addDevice offline kitchen (Str "Kitchen") true initial))
                     (snd (addDevice offline kitchen (Str "Kitchen") true initial))
                     _ _ _ _)).
    + apply (bool_decide_unpack _). vm_compute. exact I.
    + apply (bool_decide_unpack _). vm_compute. exact I.
    + reflexivity.
    + apply surjective_pairing.
  - destruct (teardown_on_every_resolution reliable) as (_ & _ & H).
    refine (proj2 (H (waiting ++ [Emit 2 (connectionStatusChanged "Ready" "Unspecified")])
                     2%nat
                     (mkAttempt kitchen (Str "Kitchen") (Some 3%nat) (Fulfilled 2) true)
                     _ _ _ _) 3%nat 30000).
    + vm_compute. lia.
    + vm_compute. reflexivity.
    + reflexivity.
    + reflexivity.
Defined.

Lemma createResponse_Ready_takes_precedence_witness :
  let w := run reliable initial discovered in
  let w2 := step reliable
              (step reliable w (Emit 2 (createResponse "MaxPendingConnectionsReached" "Ready")))
              (Resume 2) in
  effects w2 = effects w ++ [Client (AddBatteryStatusListener 4); HostDeviceAdded 3] ∧
  devices w2 !! device_id kitchen = Some 3%nat.
Proof.
  refine (proj2 (proj2 (proj2 (proj2
    (createResponse_Ready_takes_precedence reliable discovered 2%nat
       (mkAttempt kitchen (Str "Kitchen") None Pending true)
       "MaxPendingConnectionsReached" _ _ _)))));
    vm_compute; reflexivity.
Defined.

Lemma createResponse_error_rejects_witness :
  let w := run reliable initial discovered in
  let w1 := step reliable w
              (Emit 2 (createResponse "MaxPendingConnectionsReached" "Disconnected")) in
  attempts w1 !! 2%nat
  = Some (mkAttempt kitchen (Str "Kitchen") None
                    (Rejected "Too many pending connections") true) ∧
  timers w1 = timers w.
Proof.
  pose proof (createResponse_error_rejects reliable discovered 2%nat
                (mkAttempt kitchen (Str "Kitchen") None Pending true)
                "MaxPendingConnectionsReached" "Disconnected") as H.
  refine ((fun H' => conj (proj1 H') (proj1 (proj2 H'))) (H _ _ _ _ _));
    try (vm_compute; reflexivity); discriminate.
Defined.

Lemma cancelPairing_leaves_attempts_running_witness :
  let w := run reliable initial discovered in
  let w' := step reliable w CancelPairing in
  connecting w' = ∅ ∧ attempts w' = attempts w ∧ listeners w' = listeners w ∧
  devices (step reliable
             (step reliable w' (Emit 2 (connectionStatusChanged "Ready" "Unspecified")))
             (Resume 2)) !! device_id kitchen = Some 3%nat.
Proof.
  pose proof (cancelPairing_leaves_attempts_running reliable discovered eq_refl) as H.
  refine (conj (proj1 (proj2 (proj2 (proj2 H))))
           (conj (proj1 (proj2 (proj2 (proj2 (proj2 H)))))
              (conj (proj1 (proj2 (proj2 (proj2 (proj2 (proj2 H))))))
                 (proj1 (proj2 (proj2 (proj2 (proj2 (proj2 (proj2 (proj2 (proj2 (proj2 H))))))))
                           2%nat (mkAttempt kitchen (Str "Kitchen") None Pending true)
                           "Unspecified" _ _ _ _)))));
    vm_compute; reflexivity.
Defined.

Lemma private_advertisement_only_warns_witness :
  let w := run reliable initial [StartPairing 60] in
  step reliable w (Emit 0 (advertisementPacket kitchen "Kitchen" (-60) true false))
  = log (ConsoleWarn [Str "Your button"; Str "Kitchen";
                      Str "is private. Hold down for 7 seconds to make it public."]) w.
Proof.
  apply (private_advertisement_only_warns reliable [StartPairing 60] 0%nat).
  vm_compute. reflexivity.
Defined.

Lemma addDevice_gate_keeps_one_per_address_witness :
  let w := run reliable initial discovered in
  addDevice reliable kitchen (Str "Kitchen") true w = (Ret tt, w) ∧
  (occupancy (run reliable initial connected) kitchen ≤ 1)%nat.
Proof.
  destruct (addDevice_gate_keeps_one_per_address reliable) as [H1 H2]. split.
  - apply H1. right. apply (bool_decide_unpack _). vm_compute. exact I.
  - apply H2. vm_compute. reflexivity.
Defined.

(** C4 without the proviso on [cancelPairing] does not hold: cancelling
    and restarting pairing while an attempt for [kitchen] is in flight lets
    a second attempt for the same address start. *)
Lemma cancelPairing_admits_second_attempt :
  ¬ (occupancy (run reliable initial rediscovered) kitchen ≤ 1)%nat.
Proof.
  assert (occupancy (run reliable initial rediscovered) kitchen = 2%nat) as ->
    by (vm_compute; reflexivity).
  lia.
Qed.

(** C1. What the code does when an attempt is rejected: after logging the
    reason and asking the client to remove the channel, [addDevice] goes on
    to construct a [FlicButton] on that channel and registers it with the
    host. *)
Theorem rejected_attempt_still_registers_device :
  let w := run reliable initial rejected in
  effects w = [Client (AddScanner 0); Client (AddConnectionChannel 2);
               ConsoleError "Too many pending connections";
               Client (RemoveConnectionChannel 2);
               Client (AddBatteryStatusListener 4); HostDeviceAdded 3] ∧
  devices w !! device_id kitchen = Some 3%nat ∧
  b_cc <$> buttons w !! 3%nat = Some 2%nat.
Proof. vm_compute. repeat split; reflexivity. Qed.

(** C2. What the code does when the deadline passes: the timer callback
    throws a [TypeError], the client is not asked to remove the channel,
    and the attempt stays pending with its address in the [connecting] set
    and its listeners on the channel. *)
Theorem deadline_timer_throws_before_removal :
  let w := run reliable initial deadline_passed in
  effects w = [Client (AddScanner 0); Client (AddConnectionChannel 2); Uncaught TypeError] ∧
  attempts w !! 2%nat = Some (mkAttempt kitchen (Str "Kitchen") (Some 3%nat) Pending true) ∧
  elements (connecting w) = [kitchen] ∧
  listeners_of w 2 "removed" = [OnRemoved 2].
Proof. vm_compute. repeat split; reflexivity. Qed.

(** C5. What the code does when a registered device is removed again: the
    registry and the [connecting] set are as before the registration and
    the [buttonUpOrDown] listener is gone, but the listener for
    [buttonSingleOrDoubleClickOrHold] is still on the channel. *)
Theorem unload_leaves_click_listener :
  let w := run reliable initial replayed_then_removed in
  devices w = devices initial ∧ connecting w = connecting initial ∧
  listeners_of w 0 "buttonUpOrDown" = [] ∧
  listeners_of w 0 "buttonSingleOrDoubleClickOrHold"
  = [OnButtonSingleOrDoubleClickOrHold 1].
Proof. vm_compute. repeat split; reflexivity. Qed.

(** C8. What the code does with the advertised name: the device of the
    button advertised as "Kitchen" is named after its address. *)
Theorem paired_device_is_named_after_address :
  let w := run reliable initial connected in
  b_name <$> (devices w !! device_id kitchen ≫= fun thing => buttons w !! thing)
  = Some "Flic button 80:e4:da:70:aa:bb".
Proof. vm_compute. reflexivity. Qed.

(** * Starting and stopping the daemon *)

Lemma getBinaryDirectory_supported h :
  (∃ d, getBinaryDirectory h = Ret d) ↔ arch h ∈ supported.
Proof.
  unfold getBinaryDirectory, supported. rewrite !elem_of_cons, elem_of_nil.
  repeat case_bool_decide; cbn;
    (split; [first [intros [d Hd]; discriminate | intros _; tauto]
            |first [intros _; eexists; reflexivity | tauto]]).
Qed.

Lemma getBinaryDirectory_unsupported h :
  arch h ∉ supported →
  getBinaryDirectory h = Throw ("Platform " +:+ arch h +:+ " not supported").
Proof.
  unfold getBinaryDirectory, supported. rewrite !elem_of_cons, elem_of_nil.
  intros H. repeat case_bool_decide; cbn; try reflexivity; exfalso; tauto.
Qed.

Lemma getBinaryPath_unsupported h :
  platform h = "linux" → arch h ∉ supported →
  getBinaryPath h = Throw ("Platform " +:+ arch h +:+ " not supported").
Proof.
  intros Hp Ha. unfold getBinaryPath. rewrite (bool_decide_eq_true_2 _ Hp). cbn.
  rewrite (getBinaryDirectory_unsupported _ Ha). reflexivity.
Qed.

(** X1. [getBinaryPath] returns a path exactly on Linux with one of the
    five supported architectures; anywhere else it throws, and the
    platform is looked at first: off Linux the error is "No binary bundled
    for this platform" whatever the architecture. *)
Theorem getBinaryPath_returns_iff h :
  ((∃ p, getBinaryPath h = Ret p) ↔ platform h = "linux" ∧ arch h ∈ supported) ∧
  (platform h ≠ "linux" → getBinaryPath h = Throw "No binary bundled for this platform") ∧
  (platform h = "linux" → arch h ∉ supported →
   getBinaryPath h = Throw ("Platform " +:+ arch h +:+ " not supported")).
Proof.
  unfold getBinaryPath. split; [split|split].
  - case_bool_decide as Hp; cbn; [|intros [p [=]]].
    intros [p Hret]. split; [exact Hp|]. apply getBinaryDirectory_supported.
    destruct (getBinaryDirectory h); [eauto|discriminate].
  - intros [Hp [d Hd]%getBinaryDirectory_supported].
    rewrite (bool_decide_eq_true_2 _ Hp), Hd. cbn. eauto.
  - intros Hp. rewrite (bool_decide_eq_false_2 _ Hp). reflexivity.
  - fold (getBinaryPath h). apply getBinaryPath_unsupported.
Qed.

Lemma getBinaryPath_returns_iff_witness :
  getBinaryPath macbook = Throw "No binary bundled for this platform" ∧
  getBinaryPath riscv = Throw "Platform riscv64 not supported".
Proof.
  destruct (getBinaryPath_returns_iff macbook) as (_ & H1 & _).
  destruct (getBinaryPath_returns_iff riscv) as (_ & _ & H2).
  split; [apply H1; discriminate|].
  apply H2; [reflexivity|]. apply (bool_decide_unpack _). vm_compute. exact I.
Defined.

(** X2. On Linux with an unsupported architecture the constructor throws
    "Platform <arch> not supported": by then the adapter has been
    announced to the add-on manager, but no daemon has been started and no
    client created. *)
Theorem FlicAdapter_new_unsupported h :
  platform h = "linux" → arch h ∉ supported →
  FlicAdapter_new h
  = (Throw ("Platform " +:+ arch h +:+ " not supported"),
     mkSupervisor None false false [AddAdapter]).
Proof.
  intros Hp Ha. unfold FlicAdapter_new, startDaemon.
  rewrite (bool_decide_eq_true_2 _ Hp). cbn [negb].
  rewrite (getBinaryPath_unsupported h Hp Ha). reflexivity.
Qed.

Lemma FlicAdapter_new_unsupported_witness :
  FlicAdapter_new riscv
  = (Throw "Platform riscv64 not supported", mkSupervisor None false false [AddAdapter]).
Proof.
  apply (FlicAdapter_new_unsupported riscv); [reflexivity|].
  apply (bool_decide_unpack _). vm_compute. exact I.
Defined.

(** X18. On Linux with a supported architecture the constructor starts
    the daemon once, before the client is created: the command is
    `sudo <binary> -f "<database>" -p 5551 -w`, run in the add-on's
    directory, where the binary is the bundled [flicd] of one of the three
    directories armv6l, i386 and x86_64 and the database is
    [flicdb.sqlite] in the configuration directory. *)
Theorem FlicAdapter_new_on_linux h :
  platform h = "linux" → arch h ∈ supported →
  ∃ directory, directory ∈ ["armv6l"; "i386"; "x86_64"] ∧
    let binaryPath :=
      path_join h [dirname h; "fliclib-linux-hci"; "bin"; directory; "flicd"] in
    let dbPath := path_join h [getConfigDirectory h; "flicdb.sqlite"] in
    let command := "sudo " +:+ binaryPath +:+ " -f " +:+ quote +:+ dbPath +:+ quote
                   +:+ " -p 5551 -w" in
    FlicAdapter_new h
    = (Ret tt, mkSupervisor (Some command) true true
                 [AddAdapter; Exec command (dirname h); NewClient "localhost" 5551]).
Proof.
  intros Hp Ha. unfold FlicAdapter_new, startDaemon, getBinaryPath.
  rewrite (bool_decide_eq_true_2 _ Hp). cbn [negb].
  unfold getBinaryDirectory, supported in *.
  rewrite !elem_of_cons, elem_of_nil in Ha.
  repeat case_bool_decide; try tauto;
    eexists; (split; [|reflexivity]); rewrite !elem_of_cons; auto.
Qed.

Lemma FlicAdapter_new_on_linux_witness :
  ∃ directory, directory ∈ ["armv6l"; "i386"; "x86_64"] ∧
    let command :=
      "sudo " +:+ slashes ["/home/pi/flic-button-adapter"; "fliclib-linux-hci"; "bin";
                           directory; "flicd"]
      +:+ " -f " +:+ quote +:+ "/home/pi/.mozilla-iot/config/flicdb.sqlite" +:+ quote
      +:+ " -p 5551 -w" in
    FlicAdapter_new raspberry
    = (Ret tt, mkSupervisor (Some command) true true
                 [AddAdapter; Exec command "/home/pi/flic-button-adapter";
                  NewClient "localhost" 5551]).
Proof.
  apply (FlicAdapter_new_on_linux raspberry); [reflexivity|].
  apply (bool_decide_unpack _). vm_compute. exact I.
Defined.

Lemma supervise_no_child s t : flicd s = None → flicd (supervise s t) = None.
Proof.
  destruct s as [f hd cl tr]. cbn. intros ->. destruct t, cl; reflexivity.
Qed.

Lemma supervise_no_child_trail s t :
  flicd s = None →
  ∃ rest, trail (supervise s t) = trail s ++ rest ∧ (Kill ∉ rest) ∧
          (∀ c d, Exec c d ∉ rest).
Proof.
  destruct s as [f hd cl tr]. cbn. intros ->. destruct t, cl; cbn;
    rewrite <- ?app_assoc; cbn;
    (eexists; split; [first [reflexivity | symmetry; apply app_nil_r]|]);
    (split; [|intros c d]); rewrite ?elem_of_cons, elem_of_nil; intuition discriminate.
Qed.

Lemma quiet_without_child ts : ∀ s,
  flicd s = None →
  ∃ rest, trail (foldl supervise s ts) = trail s ++ rest ∧ (Kill ∉ rest) ∧
          (∀ c d, Exec c d ∉ rest).
Proof.
  induction ts as [|t ts IH]; intros s H; cbn.
  - exists []. rewrite app_nil_r. split; [reflexivity|].
    split; try intros c d; apply not_elem_of_nil.
  - destruct (supervise_no_child_trail s t H) as (r1 & E1 & K1 & X1).
    destruct (IH _ (supervise_no_child s t H)) as (r2 & E2 & K2 & X2).
    exists (r1 ++ r2). rewrite E2, E1, app_assoc. split; [reflexivity|].
    split; try intros c d; rewrite elem_of_app; [|specialize (X1 c d); specialize (X2 c d)];
      tauto.
Qed.

(** X3. Off Linux the constructor only warns that the daemon has to be
    started by hand and goes on to create the client on port 5551; no
    process is started then or later, and whatever follows (unloads, exit
    reports) never kills one. *)
Theorem no_daemon_off_linux h ts :
  platform h ≠ "linux" →
  ∃ s, FlicAdapter_new h = (Ret tt, s) ∧
       flicd s = None ∧ hasDaemon s = false ∧
       trail s = [AddAdapter; Warn "You have to manually start the flic daemon";
                  NewClient "localhost" 5551] ∧
       ∃ rest, trail (foldl supervise s ts) = trail s ++ rest ∧ (Kill ∉ rest) ∧
               (∀ c d, Exec c d ∉ rest).
Proof.
  intros Hp. unfold FlicAdapter_new, startDaemon.
  rewrite (bool_decide_eq_false_2 _ Hp). cbn [negb].
  eexists. split; [reflexivity|]. cbn. repeat (split; [reflexivity|]).
  apply quiet_without_child. reflexivity.
Qed.

Lemma no_daemon_off_linux_witness :
  ∃ s, FlicAdapter_new macbook = (Ret tt, s) ∧
       trail (foldl supervise s [Unload; Unload])
       = [AddAdapter; Warn "You have to manually start the flic daemon";
          NewClient "localhost" 5551; Close; SuperUnload; Close; SuperUnload].
Proof.
  destruct (no_daemon_off_linux macbook [Unload; Unload]) as (s & E & _ & _ & _ & _);
    [discriminate|].
  exists s. split; [exact E|]. vm_compute in E. injection E as <-. reflexivity.
Defined.

(** X4. Once the end of the daemon has been reported, nothing the
    adapter does afterwards kills a process: the exit callback forgets the
    child before it unloads, so neither that unload nor any later one
    calls [kill]. *)
Theorem no_kill_after_exit s e ts :
  ∃ rest, trail (foldl supervise s (DaemonExit e :: ts)) = trail s ++ rest ∧ Kill ∉ rest.
Proof.
  cbn [foldl].
  assert (Hn : flicd (supervise s (DaemonExit e)) = None)
    by (destruct s as [[c|] hd [] tr]; reflexivity).
  assert (∃ r1, trail (supervise s (DaemonExit e)) = trail s ++ r1 ∧ Kill ∉ r1)
    as (r1 & E1 & K1).
  { destruct s as [[c|] hd [] tr]; cbn; rewrite <- ?app_assoc; cbn;
      (eexists; split; [first [reflexivity | symmetry; apply app_nil_r]|]);
      rewrite ?elem_of_cons, elem_of_nil; intuition discriminate. }
  destruct (quiet_without_child ts _ Hn) as (r2 & E2 & K2 & _).
  exists (r1 ++ r2). rewrite E2, E1, app_assoc. split; [reflexivity|].
  rewrite elem_of_app. tauto.
Qed.

(** X5. Unloading an adapter whose daemon is running unloads it twice:
    [unload] closes the client and kills the daemon, and when the daemon's
    end is then reported the exit callback calls [unload] again, which
    closes the client a second time; the daemon is killed once. *)
Theorem unload_runs_again_on_exit s c e :
  flicd s = Some c → client s = true →
  trail (foldl supervise s [Unload; DaemonExit e])
  = trail s ++ [Close; Kill; SuperUnload; LogError e; Close; SuperUnload].
Proof.
  destruct s as [f hd cl tr]. cbn. intros -> ->. cbn.
  rewrite <- !app_assoc. reflexivity.
Qed.

Lemma unload_runs_again_on_exit_witness :
  trail (foldl supervise (snd (FlicAdapter_new raspberry)) [Unload; DaemonExit None])
  = trail (snd (FlicAdapter_new raspberry))
    ++ [Close; Kill; SuperUnload; LogError None; Close; SuperUnload].
Proof.
  apply (unload_runs_again_on_exit (snd (FlicAdapter_new raspberry))
           (daemon_command "/home/pi/flic-button-adapter/fliclib-linux-hci/bin/armv6l/flicd"
                           "/home/pi/.mozilla-iot/config/flicdb.sqlite"));
    vm_compute; reflexivity.
Defined.

(** * The further properties on sample runs *)

Lemma one_pairing_deadline_witness :
  timeout (run reliable initial discovered) = Some 1%nat.
Proof.
  refine (proj2 (one_pairing_deadline reliable discovered 1 1 60000 60000 _ _));
    vm_compute; reflexivity.
Defined.

Lemma pairing_deadline_cancels_witness :
  step reliable (run reliable initial discovered) (Fire 1)
  = step reliable (run reliable initial discovered) CancelPairing.
Proof.
  apply (pairing_deadline_cancels reliable discovered 1 60000); vm_compute; reflexivity.
Defined.

Lemma cancelPairing_disarms_witness :
  timers (step reliable (run reliable initial discovered) CancelPairing) !! 1%nat
  ≠ Some (CancelPairingAfterDeadline, 60000).
Proof. apply (cancelPairing_disarms reliable discovered). reflexivity. Defined.

Lemma connecting_has_attempt_witness :
  ∃ cc a, attempts (run reliable initial deadline_passed) !! cc = Some a ∧
          a_awaiting a = true ∧ a_bdAddr a = kitchen.
Proof.
  apply (connecting_has_attempt reliable deadline_passed kitchen).
  apply (bool_decide_unpack _). vm_compute. exact I.
Defined.

Lemma replay_registers_without_attempts_witness :
  effects (step reliable initial (ClientReady [kitchen; kitchen]))
  = [Client (AddConnectionChannel 0); Client (AddBatteryStatusListener 2);
     HostDeviceAdded 1].
Proof.
  destruct (proj2 (proj2 (proj2
    (replay_registers_without_attempts reliable initial [kitchen; kitchen])))
    (fun _ _ => eq_refl)) as (_ & _ & _ & H & _).
  refine (eq_trans H _). vm_compute. reflexivity.
Defined.

Lemma register_then_remove_witness :
  devices (run reliable initial replayed_then_removed) = devices initial.
Proof.
  refine (proj1 (proj2 (register_then_remove reliable initial kitchen
                          (fun _ _ => eq_refl) _ _)));
    apply (bool_decide_unpack _); vm_compute; exact I.
Defined.

(** A client library that refuses to remove connection channels. *)
Lemma removeThing_interrupted_witness :
  let stubborn := fun (_ : list Effect) c =>
                    match c with
                    | RemoveConnectionChannel _ => Some "Error: not connected"
                    | _ => None
                    end in
  let w := run stubborn initial replayed in
  devices (step stubborn w (RemoveThing 1)) = devices w.
Proof.
  intros stubborn w.
  refine (proj1 (removeThing_interrupted stubborn w 1%nat
                   (mkFlicButton (device_id kitchen) "Flic button 80:e4:da:70:aa:bb" kitchen
                                 0 100 false 2)
                   "Error: not connected" _ _)); vm_compute; reflexivity.
Defined.

Lemma status_other_than_Ready_is_ignored_witness :
  step reliable (run reliable initial waiting)
       (Emit 2 (connectionStatusChanged "Connected" "Unspecified"))
  = run reliable initial waiting.
Proof.
  apply (status_other_than_Ready_is_ignored reliable waiting 2%nat
           (mkAttempt kitchen (Str "Kitchen") (Some 3%nat) Pending true));
    try (vm_compute; reflexivity); discriminate.
Defined.

Lemma removed_rejects_with_reason_witness :
  attempts (step reliable (run reliable initial waiting) (Emit 2 (removed "RemovedByThisClient")))
    !! 2%nat
  = Some (mkAttempt kitchen (Str "Kitchen") (Some 3%nat) (Rejected "Timed out") true).
Proof.
  refine (proj1 (removed_rejects_with_reason reliable waiting 2%nat
                   (mkAttempt kitchen (Str "Kitchen") (Some 3%nat) Pending true)
                   "RemovedByThisClient" _ _ _)); vm_compute; reflexivity.
Defined.

Lemma pairing_succeeds_cleanly_witness :
  timers (run reliable initial connected) = timers (run reliable initial discovered).
Proof.
  refine (proj1 (proj2 (pairing_succeeds_cleanly reliable discovered 2%nat
                          (mkAttempt kitchen (Str "Kitchen") None Pending true)
                          "Disconnected" "Unspecified" _ _ _ _ _ _)));
    try (vm_compute; reflexivity); discriminate.
Defined.

Lemma new_button_tracks_signals_witness :
  b_pushed <$> buttons (run reliable initial
                          (replayed ++ [Emit 0 (buttonUpOrDown "ButtonDown");
                                        Emit 2 (batteryStatus 87)])) !! 1%nat
  = Some true.
Proof.
  pose proof (proj1 (proj2 (new_button_tracks_signals reliable [] kitchen "ButtonDown" 87
                              (fun _ _ => eq_refl)
                              ltac:(apply (bool_decide_unpack _); vm_compute; exact I)
                              ltac:(apply (bool_decide_unpack _); vm_compute; exact I)))) as H.
  change (run reliable initial []) with initial in H.
  change (run reliable initial (replayed ++ _)) with
    (run reliable (step reliable initial (ClientReady [kitchen]))
         [Emit 0 (buttonUpOrDown "ButtonDown"); Emit 2 (batteryStatus 87)]).
  cbn [next initial] in H. rewrite H. reflexivity.
Defined.
